(** * ahd: the ad-hoc command dispatcher (src/ahd/cli.py)

    A shallow embedding of [main] and [_preprocess_paths], together with the
    parts of Python's [str], [list] and [configparser.ConfigParser] they rely
    on, and the properties of registration, dispatch and configuration
    export/import.

    Conventions.
    - A Python [str] is a [string]; each [ascii] stands for the code point of
      the same number, so the model covers text over code points 0..255.
    - [main] runs in a state-and-exception monad over a [World]: the global
      [config] object, the global [commands] list, the file system, the
      working directory and the trace of externally visible calls.
    - An exception nobody catches ends the run: [main] has no [try], so every
      raised exception leaves [main] as [Raised]. *)

From Stdlib Require Import String Ascii List Bool Arith Lia.
Import ListNotations.
Open Scope list_scope.
Open Scope string_scope.

(** ** Python strings *)

Module Py.

Definition ord (c : ascii) : nat := nat_of_ascii c.

(** [str.isspace] on one character, for code points below 256. *)
Definition isspace (c : ascii) : bool :=
  let n := ord c in
  (((9 <=? n) && (n <=? 13)) || ((28 <=? n) && (n <=? 32))
   || (n =? 133) || (n =? 160))%nat.

(** [str.isprintable] on one character, for code points below 256. *)
Definition isprintable (c : ascii) : bool :=
  let n := ord c in
  (((32 <=? n) && (n <? 127)) || ((161 <=? n) && negb (n =? 173)))%nat.

(** [str.lower] on one character, for code points below 256. *)
Definition lower_char (c : ascii) : ascii :=
  let n := ord c in
  if (((65 <=? n) && (n <=? 90))
      || ((192 <=? n) && (n <=? 222) && negb (n =? 215)))%nat
  then ascii_of_nat (n + 32) else c.

Fixpoint lower (s : string) : string :=
  match s with
  | EmptyString => EmptyString
  | String c r => String (lower_char c) (lower r)
  end.

(** [c in s] for a one-character [c]. *)
Fixpoint contains (c : ascii) (s : string) : bool :=
  match s with
  | EmptyString => false
  | String d r => Ascii.eqb d c || contains c r
  end.

(** [s.count(c)] for a one-character [c]. *)
Fixpoint count (c : ascii) (s : string) : nat :=
  match s with
  | EmptyString => 0
  | String d r => (if Ascii.eqb d c then 1 else 0) + count c r
  end.

(** [s.startswith(c)] for a one-character [c]. *)
Definition startswith (c : ascii) (s : string) : bool :=
  match s with
  | String d _ => Ascii.eqb d c
  | EmptyString => false
  end.

(** [s.endswith(c)] for a one-character [c]. *)
Fixpoint endswith (c : ascii) (s : string) : bool :=
  match s with
  | EmptyString => false
  | String d EmptyString => Ascii.eqb d c
  | String _ r => endswith c r
  end.

(** [s.split(sep)] for a one-character separator: never the empty list. *)
Fixpoint split (sep : ascii) (s : string) : list string :=
  match s with
  | EmptyString => [EmptyString]
  | String c r =>
      if Ascii.eqb c sep then EmptyString :: split sep r
      else match split sep r with
           | h :: t => String c h :: t
           | [] => [String c EmptyString]
           end
  end.

(** [sep.join(l)]. *)
Fixpoint join (sep : string) (l : list string) : string :=
  match l with
  | [] => EmptyString
  | [x] => x
  | x :: r => x ++ sep ++ join sep r
  end.

(** [s.replace(old, new)] for a one-character [old]. *)
Fixpoint replace (old : ascii) (new : string) (s : string) : string :=
  match s with
  | EmptyString => EmptyString
  | String c r =>
      if Ascii.eqb c old then new ++ replace old new r
      else String c (replace old new r)
  end.

(** [s.replace("%%", "")]: occurrences are taken left to right and do not
    overlap.  [skip] says that the character at hand closes an occurrence. *)
Fixpoint remove_double_percent_from (skip : bool) (s : string) : string :=
  match s with
  | EmptyString => EmptyString
  | String c r =>
      if skip then remove_double_percent_from false r
      else if Ascii.eqb c "%" && startswith "%" r
           then remove_double_percent_from true r
           else String c (remove_double_percent_from false r)
  end.

Definition remove_double_percent : string -> string :=
  remove_double_percent_from false.

(** [s.lstrip()], [s.rstrip()] and [s.strip()] with no argument. *)
Fixpoint lstrip (s : string) : string :=
  match s with
  | EmptyString => EmptyString
  | String c r => if isspace c then lstrip r else s
  end.

Fixpoint rstrip (s : string) : string :=
  match s with
  | EmptyString => EmptyString
  | String c r =>
      match rstrip r with
      | EmptyString => if isspace c then EmptyString else String c EmptyString
      | t => String c t
      end
  end.

Definition strip (s : string) : string := rstrip (lstrip s).

(** [s[:-1]] and [s[1:-1]]. *)
Fixpoint drop_last (s : string) : string :=
  match s with
  | EmptyString => EmptyString
  | String _ EmptyString => EmptyString
  | String c r => String c (drop_last r)
  end.

Definition slice_1_m1 (s : string) : string :=
  match s with
  | EmptyString => EmptyString
  | String _ r => drop_last r
  end.

(** *** [repr] of a [str] and [str] of a list of [str] *)

Definition hex_digit (n : nat) : ascii :=
  nth n ["0"; "1"; "2"; "3"; "4"; "5"; "6"; "7"; "8"; "9";
         "a"; "b"; "c"; "d"; "e"; "f"]%char "0"%char.

(** The quote [repr] encloses the text in: the double quote when the text
    has a single quote and no double quote, the single quote otherwise. *)
Definition dquote : ascii := ascii_of_nat 34.

Definition repr_quote (s : string) : ascii :=
  if contains "'" s && negb (contains dquote s) then dquote else "'"%char.

Definition repr_char (quote c : ascii) : string :=
  if Ascii.eqb c quote || Ascii.eqb c "\" then String "\" (String c "")
  else if (ord c =? 9)%nat then "\t"
  else if (ord c =? 10)%nat then "\n"
  else if (ord c =? 13)%nat then "\r"
  else if isprintable c then String c ""
  else String "\" (String "x" (String (hex_digit (ord c / 16)%nat)
                                  (String (hex_digit (ord c mod 16)%nat) ""))).

Fixpoint repr_body (quote : ascii) (s : string) : string :=
  match s with
  | EmptyString => EmptyString
  | String c r => repr_char quote c ++ repr_body quote r
  end.

Definition repr (s : string) : string :=
  let q := repr_quote s in
  String q (repr_body q s ++ String q "").

(** [str(l)] for a list of [str]. *)
Definition str_of_list (l : list string) : string :=
  "[" ++ join ", " (map repr l) ++ "]".

End Py.

(** ** Exceptions *)

(** The exceptions the program can meet.  [KeyError None] is the
    [KeyError] whose key is Python's [None]. *)
Inductive Exn : Type :=
| KeyError (key : option string)
| ValueError (what : string)
| FileNotFoundError (filename : string)
| PermissionError (filename : string)
| InterpolationSyntaxError (opt section : string)
| InterpolationMissingOptionError (opt section reference : string)
| InterpolationDepthError (opt section : string)
| MissingSectionHeaderError (source : string) (lineno : nat)
| DuplicateSectionError (section : string)
| DuplicateOptionError (section opt : string)
| ParsingError (source : string).

(** ** [configparser.ConfigParser], as the program uses it

    The parser is created by [ConfigParser()]: strict, with
    [BasicInterpolation], the default section [DEFAULT], and option names
    passed through [str.lower]. *)

Module ConfigParser.

(** A Python [dict] with [str] keys: insertion-ordered, one entry per key. *)
Definition dict (V : Type) : Type := list (string * V).

Fixpoint dict_get {V : Type} (d : dict V) (k : string) : option V :=
  match d with
  | [] => None
  | (k', v) :: r => if k' =? k then Some v else dict_get r k
  end.

(** [d[k] = v]: an existing key keeps its place, a new key goes last. *)
Fixpoint dict_set {V : Type} (d : dict V) (k : string) (v : V) : dict V :=
  match d with
  | [] => [(k, v)]
  | (k', v') :: r =>
      if k' =? k then (k, v) :: r else (k', v') :: dict_set r k v
  end.

Definition dict_mem {V : Type} (d : dict V) (k : string) : bool :=
  match dict_get d k with Some _ => true | None => false end.

Definition dict_keys {V : Type} (d : dict V) : list string := map fst d.

Record t : Type := {
  _defaults : dict string;
  _sections : dict (dict string)
}.

Definition empty : t := {| _defaults := []; _sections := [] |}.

Definition default_section : string := "DEFAULT".

Definition optionxform (opt : string) : string := Py.lower opt.

Definition MAX_INTERPOLATION_DEPTH : nat := 10.

Definition has_section (cfg : t) (section : string) : bool :=
  dict_mem (_sections cfg) section.

(** [key in cfg], for a key that is a [str] or [None]. *)
Definition contains (cfg : t) (key : option string) : bool :=
  match key with
  | Some k => (k =? default_section) || has_section cfg k
  | None => false
  end.

(** [iter(cfg)]: the default section's name, then the sections' names. *)
Definition keys (cfg : t) : list string :=
  default_section :: dict_keys (_sections cfg).

(** The options of a section as [_unify_values] chains them: the section's
    own, then the defaults. *)
Definition section_dict (cfg : t) (section : string) : dict string :=
  match dict_get (_sections cfg) section with
  | Some d => d
  | None => []
  end.

Definition chain_get (cfg : t) (section opt : string) : option string :=
  match dict_get (section_dict cfg section) opt with
  | Some v => Some v
  | None => dict_get (_defaults cfg) opt
  end.

Definition has_option (cfg : t) (section opt : string) : bool :=
  if (section =? "") || (section =? default_section)
  then dict_mem (_defaults cfg) (optionxform opt)
  else if negb (has_section cfg section) then false
  else dict_mem (section_dict cfg section) (optionxform opt)
       || dict_mem (_defaults cfg) (optionxform opt).

(** *** [BasicInterpolation] *)

(** The longest prefix without a closing parenthesis, and what follows. *)
Fixpoint span_not_rparen (s : string) : string * string :=
  match s with
  | EmptyString => (EmptyString, EmptyString)
  | String c r =>
      if Ascii.eqb c ")" then (EmptyString, s)
      else let (a, b) := span_not_rparen r in (String c a, b)
  end.

(** [_KEYCRE.match(s)] for [_KEYCRE = %\(([^)]+)\)s]: the name between the
    parentheses and the text after the match. *)
Definition keycre_match (s : string) : option (string * string) :=
  match s with
  | String c0 (String c1 r) =>
      if Ascii.eqb c0 "%" && Ascii.eqb c1 "(" then
        match span_not_rparen r with
        | (String v0 v, String _ (String c3 rest)) =>
            if Ascii.eqb c3 "s" then Some (String v0 v, rest) else None
        | _ => None
        end
      else None
  | _ => None
  end.

(** [_KEYCRE.sub('', s)]; [skip] counts the characters of a match still to
    be dropped. *)
Fixpoint keycre_remove (skip : nat) (s : string) : string :=
  match s with
  | EmptyString => EmptyString
  | String c r =>
      match skip with
      | S k => keycre_remove k r
      | O =>
          match keycre_match s with
          | Some (var, _) => keycre_remove (String.length var + 3) r
          | None => String c (keycre_remove 0 r)
          end
      end
  end.

(** [before_set]: refuses a value with a percent sign that neither is
    doubled nor opens a reference. *)
Definition before_set (value : string) : Exn + string :=
  let tmp_value := keycre_remove 0 (Py.remove_double_percent value) in
  if Py.contains "%" tmp_value
  then inl (ValueError "invalid interpolation syntax")
  else inr value.

(** The loop of [_interpolate_some] over [rest]; [deeper] is the call one
    level down, made for a referenced value that holds a percent sign.
    [fuel] bounds the turns of the loop: more than [rest] has characters. *)
Fixpoint interpolate_scan (deeper : string -> Exn + string)
         (lookup : string -> option string) (opt section : string)
         (fuel : nat) (rest : string) {struct fuel} : Exn + string :=
  match fuel with
  | O => inr EmptyString
  | S fuel' =>
      match rest with
      | EmptyString => inr EmptyString
      | String c r =>
          if negb (Ascii.eqb c "%") then
            match interpolate_scan deeper lookup opt section fuel' r with
            | inr out => inr (String c out)
            | inl e => inl e
            end
          else
            match r with
            | String d r2 =>
                if Ascii.eqb d "%" then
                  match interpolate_scan deeper lookup opt section fuel' r2 with
                  | inr out => inr (String "%" out)
                  | inl e => inl e
                  end
                else if Ascii.eqb d "(" then
                  match keycre_match rest with
                  | None => inl (InterpolationSyntaxError opt section)
                  | Some (name, rest') =>
                      let var := optionxform name in
                      match lookup var with
                      | None =>
                          inl (InterpolationMissingOptionError opt section var)
                      | Some v =>
                          match (if Py.contains "%" v then deeper v
                                 else inr v) with
                          | inl e => inl e
                          | inr v' =>
                              match interpolate_scan deeper lookup opt section
                                                     fuel' rest' with
                              | inr out => inr (v' ++ out)
                              | inl e => inl e
                              end
                          end
                      end
                  end
                else inl (InterpolationSyntaxError opt section)
            | EmptyString => inl (InterpolationSyntaxError opt section)
            end
      end
  end.

(** [_interpolate_some]: [depth_left] is how many levels may still be
    entered, [MAX_INTERPOLATION_DEPTH] at the start; [lookup] is the chained
    mapping of the section. *)
Fixpoint interpolate_some (depth_left : nat) (lookup : string -> option string)
         (opt section rest0 : string) : Exn + string :=
  match depth_left with
  | O => inl (InterpolationDepthError opt section)
  | S deeper =>
      interpolate_scan (interpolate_some deeper lookup opt section)
                       lookup opt section (S (String.length rest0)) rest0
  end.

Definition before_get (cfg : t) (section opt value : string)
  : Exn + string :=
  interpolate_some MAX_INTERPOLATION_DEPTH (chain_get cfg section)
                   opt section value.

(** [cfg.get(section, opt, raw=True)] for a section the parser has. *)
Definition get_raw (cfg : t) (section opt : string) : option string :=
  chain_get cfg section (optionxform opt).

(** [cfg[key][opt]]: [__getitem__] of the parser, then of the section
    proxy, which reads through [get] and so interpolates. *)
Definition getitem (cfg : t) (key : option string) (opt : string)
  : Exn + string :=
  match key with
  | None => inl (KeyError None)
  | Some section =>
      if negb (section =? default_section) && negb (has_section cfg section)
      then inl (KeyError (Some section))
      else if negb (has_option cfg section opt)
      then inl (KeyError (Some opt))
      else match get_raw cfg section opt with
           | None => inl (KeyError (Some opt))
           | Some value => before_get cfg section (optionxform opt) value
           end
  end.

(** *** Writing into the parser *)

(** [cfg.set(section, opt, value)] for a section that exists. *)
Definition set (cfg : t) (section opt value : string) : Exn + t :=
  match (if value =? "" then inr value else before_set value) with
  | inl e => inl e
  | inr value =>
      if (section =? "") || (section =? default_section)
      then inr {| _defaults := dict_set (_defaults cfg) (optionxform opt) value;
                  _sections := _sections cfg |}
      else inr {| _defaults := _defaults cfg;
                  _sections :=
                    dict_set (_sections cfg) section
                      (dict_set (section_dict cfg section)
                                (optionxform opt) value) |}
  end.

(** [add_section] as [read_dict] calls it: the refusals ([DEFAULT], a section
    that exists) are caught there and change nothing. *)
Definition add_section_quietly (cfg : t) (section : string) : t :=
  if (section =? default_section) || has_section cfg section then cfg
  else {| _defaults := _defaults cfg;
          _sections := dict_set (_sections cfg) section [] |}.

(** The loop of [read_dict] over one section's items.  An exception leaves
    the parser as the items before it made it. *)
Fixpoint set_items (cfg : t) (section : string) (items : list (string * string))
  : t * option Exn :=
  match items with
  | [] => (cfg, None)
  | (key, value) :: more =>
      match set cfg section (optionxform key) value with
      | inl e => (cfg, Some e)
      | inr cfg' => set_items cfg' section more
      end
  end.

Definition read_dict (cfg : t) (section : string)
           (items : list (string * string)) : t * option Exn :=
  set_items (add_section_quietly cfg section) section items.

(** [str(key)] for a key that is a [str] or [None]. *)
Definition str_of_key (key : option string) : string :=
  match key with Some k => k | None => "None" end.

(** [cfg[key] = items], the values already turned into [str]. *)
Definition setitem (cfg : t) (key : option string)
           (items : list (string * string)) : t * option Exn :=
  let cleared :=
    match key with
    | Some k =>
        if k =? default_section
        then {| _defaults := []; _sections := _sections cfg |}
        else if has_section cfg k
        then {| _defaults := _defaults cfg;
                _sections := dict_set (_sections cfg) k [] |}
        else cfg
    | None => cfg
    end in
  read_dict cleared (str_of_key key) items.

(** *** [cfg.write(fp)] *)

Definition nl : string := String (ascii_of_nat 10) "".
Definition tab : string := String (ascii_of_nat 9) "".

Definition write_item (item : string * string) : string :=
  fst item ++ " = " ++ Py.replace (ascii_of_nat 10) (nl ++ tab) (snd item) ++ nl.

Definition write_section (section_name : string) (items : dict string)
  : string :=
  "[" ++ section_name ++ "]" ++ nl ++ String.concat "" (map write_item items) ++ nl.

Definition write (cfg : t) : string :=
  (match _defaults cfg with
   | [] => ""
   | items => write_section default_section items
   end)
  ++ String.concat ""
       (map (fun s => write_section (fst s) (snd s)) (_sections cfg)).

End ConfigParser.

(** ** The host, the world and the run monad *)

(** [command(name, flags)] of the autocomplete module: a completable word
    and its option flags. *)
Record command : Type := { command_name : string; command_flags : list string }.

(** The two collaborators of [cli.py] whose code is elsewhere: the
    completion-script generator of the package's autocomplete module, and
    the reader of the standard library's [ConfigParser] ([_read]: the text of
    a source, its name, the parser before; the parser after, or the
    exception).  Every property below holds whatever they compute. *)
Class Library : Type := {
  generate_bash_autocomplete : list command -> string;
  read_text : string -> string -> ConfigParser.t -> Exn + ConfigParser.t
}.

Inductive Platform : Type := Posix | Nt.

Definition os_name (p : Platform) : string :=
  match p with Posix => "posix" | Nt => "nt" end.

Definition os_sep (p : Platform) : string :=
  match p with Posix => "/" | Nt => "\" end.

Definition os_curdir : string := ".".

(** What a run finds and cannot change: the platform, the directory of the
    module file, how a path name and the working directory name a file, and
    which files refuse to be opened for writing (with the exception [open]
    raises for them). *)
Record Env : Type := {
  platform : Platform;
  module_dir : string;
  realpath : string -> string -> string;
  open_w_error : string -> option Exn
}.

(** The calls the outside can see.  [Popen] returns once the child is
    started; [ProcessWait] stands for the calls by which a parent blocks on
    a child ([wait], [communicate]). *)
Inductive Event : Type :=
| Print (text : string)
| Popen (args : string) (shell : bool)
| ProcessWait (child : nat)
| OpenBrowser (url : string)
| Chdir (path : string).

Record World : Type := {
  config : ConfigParser.t;
  commands : list command;
  files : string -> option string;
  cwd : string;
  trace : list Event
}.

Inductive Result (A : Type) : Type :=
| Ok (a : A)
| Raised (e : Exn)
| Exited.

Arguments Ok {A} a.
Arguments Raised {A} e.
Arguments Exited {A}.

Definition M (A : Type) : Type := World -> World * Result A.

Definition ret {A : Type} (a : A) : M A := fun w => (w, Ok a).

Definition bind {A B : Type} (m : M A) (k : A -> M B) : M B :=
  fun w =>
    match m w with
    | (w', Ok a) => k a w'
    | (w', Raised e) => (w', Raised e)
    | (w', Exited) => (w', Exited)
    end.

Definition raise {A : Type} (e : Exn) : M A := fun w => (w, Raised e).

Definition exit {A : Type} : M A := fun w => (w, Exited).

Notation "x <- m ;; k" := (bind m (fun x => k))
  (at level 61, m at next level, right associativity).
Notation "m ;; k" := (bind m (fun _ => k))
  (at level 61, right associativity).

Definition when (b : bool) (m : M unit) : M unit := if b then m else ret tt.

Fixpoint for_each {A : Type} (l : list A) (body : A -> M unit) : M unit :=
  match l with
  | [] => ret tt
  | x :: r => body x ;; for_each r body
  end.

Definition get_world : M World := fun w => (w, Ok w).

Definition emit (e : Event) : M unit :=
  fun w => ({| config := config w; commands := commands w; files := files w;
               cwd := cwd w; trace := (trace w ++ [e])%list |}, Ok tt).

Definition set_config (c : ConfigParser.t) : M unit :=
  fun w => ({| config := c; commands := commands w; files := files w;
               cwd := cwd w; trace := trace w |}, Ok tt).

Definition set_commands (l : list command) : M unit :=
  fun w => ({| config := config w; commands := l; files := files w;
               cwd := cwd w; trace := trace w |}, Ok tt).

Definition set_file (file text : string) : M unit :=
  fun w => ({| config := config w; commands := commands w;
               files := fun f => if f =? file then Some text else files w f;
               cwd := cwd w; trace := trace w |}, Ok tt).

Definition set_cwd (dir : string) : M unit :=
  fun w => ({| config := config w; commands := commands w; files := files w;
               cwd := dir; trace := trace w |}, Ok tt).

(** Python truthiness of a value that is a [str] or [None]. *)
Definition truthy (v : option string) : bool :=
  match v with
  | Some s => negb (s =? "")
  | None => false
  end.

Definition usage : string := "Add-hoc dispatcher
    Create ad-hoc commands to be dispatched within their own namespace.

    Usage: 
        ahd [-h] [-v] [-d]
        ahd docs [-a] [-o]
        ahd config [-e] [-i CONFIG_FILE_PATH]
        ahd register <name> [<command>] [<paths>]
        ahd <name> [<command>] [<paths>]

    Options:
    -h, --help            show this help message and exit
    -v, --version         show program's version number and exit
    -a, --api             shows the local API docs
    -o, --offline         shows the local User docs instead of live ones
    -e, --export          exports the configuration file
    -i CONFIG_FILE_PATH, --import CONFIG_FILE_PATH 
                          imports the configuration file
    ".

Definition CURRENT_PATH : string := os_curdir.

(** [_preprocess_paths]: the comma-separated paths, each with backslashes
    turned into slashes and stripped. *)
Definition _preprocess_paths (paths : string) : list string :=
  map (fun path => Py.strip (Py.replace "\" "/" path)) (Py.split "," paths).

(** The dictionary [docopt] returns for [usage], and [len(sys.argv)]. *)
Record Arguments : Type := {
  sys_argv_len : nat;
  arg_docs : bool;
  arg_config : bool;
  arg_register : bool;
  arg_export : bool;
  arg_import : option string;
  arg_name : option string;
  arg_command : option string;
  arg_paths : option string
}.

(** [str(v)] of the value [main] stores under [paths]: the empty [str], or
    the list [_preprocess_paths] returned. *)
Inductive PathsValue : Type :=
| PathsStr (s : string)
| PathsList (l : list string).

Definition str_of_paths (v : PathsValue) : string :=
  match v with
  | PathsStr s => s
  | PathsList l => Py.str_of_list l
  end.

(** The lines of a text file as iterating over it yields them, each with its
    line end. *)
Fixpoint lines_from (current : string) (text : string) : list string :=
  match text with
  | EmptyString =>
      match current with EmptyString => [] | _ => [current] end
  | String c r =>
      if Ascii.eqb c (ascii_of_nat 10)
      then (current ++ String c "") :: lines_from EmptyString r
      else lines_from (current ++ String c "") r
  end.

Definition file_lines (text : string) : list string := lines_from "" text.

Section Program.

Context {lib : Library}.
Variable env : Env.

Definition CONFIG_FILE_PATH : string :=
  module_dir env ++ os_sep (platform env) ++ ".ahdconfig".

Definition print (text : string) : M unit := emit (Print text).

(** [subprocess.Popen(args, shell=True)]: the child is started and the call
    returns. *)
Definition subprocess_Popen (args : string) : M unit := emit (Popen args true).

Definition webbrowser_open_new (url : string) : M unit := emit (OpenBrowser url).

(** [os.chdir(path)]: [.] names the directory the process is in; another
    relative name is taken from there. *)
Definition os_chdir (path : string) : M unit :=
  emit (Chdir path) ;;
  w <- get_world ;;
  if path =? os_curdir then ret tt
  else if Py.startswith "/" path then set_cwd path
  else set_cwd (cwd w ++ "/" ++ path).

Definition os_path_exists (path : string) : M bool :=
  w <- get_world ;;
  ret (match files w (realpath env (cwd w) path) with
       | Some _ => true
       | None => false
       end).

(** [with open(path, "w") as f: f.write(text)], the text computed once the
    file is open. *)
Definition write_file (path : string) (text : World -> string) : M unit :=
  w <- get_world ;;
  match open_w_error env (realpath env (cwd w) path) with
  | Some e => raise e
  | None => set_file (realpath env (cwd w) path) (text w)
  end.

(** [open(path, "r")] and the whole text behind it. *)
Definition read_file (path : string) : M string :=
  w <- get_world ;;
  match files w (realpath env (cwd w) path) with
  | Some text => ret text
  | None => raise (FileNotFoundError path)
  end.

Definition config_write (w : World) : string := ConfigParser.write (config w).

(** One turn of the loop in [config.read(filenames)]: a name that cannot be
    opened is passed over, a name with a null character is refused by
    [open] with [ValueError], and a file that opens is read into the
    parser. *)
Definition config_read_one (filename : string) : M unit :=
  w <- get_world ;;
  if Py.contains (ascii_of_nat 0) filename
  then raise (ValueError "embedded null character")
  else match files w (realpath env (cwd w) filename) with
       | None => ret tt
       | Some text =>
           match read_text filename text (config w) with
           | inl e => raise e
           | inr c => set_config c
           end
       end.

(** [config.read(filenames)] for an iterable of names. *)
Definition config_read (filenames : list string) : M unit :=
  for_each filenames config_read_one.

(** [config[name][opt]]. *)
Definition config_getitem (name : option string) (opt : string) : M string :=
  w <- get_world ;;
  match ConfigParser.getitem (config w) name opt with
  | inl e => raise e
  | inr v => ret v
  end.

(** [config[name] = {...}]. *)
Definition config_setitem (name : option string)
           (items : list (string * string)) : M unit :=
  w <- get_world ;;
  match ConfigParser.setitem (config w) name items with
  | (c, Some e) => set_config c ;; raise e
  | (c, None) => set_config c
  end.

(** The instruction handed to the shell for one directory. *)
Definition instruction (directory cmd : string) : string :=
  Py.replace "'" "" ("cd " ++ directory ++ " && " ++ cmd ++ " ").

(** Lines 85-90 of [main]: read the store, or create it. *)
Definition load_store : M unit :=
  exists_ <- os_path_exists CONFIG_FILE_PATH ;;
  if exists_ : bool
  then config_read [CONFIG_FILE_PATH]
  else write_file CONFIG_FILE_PATH config_write.

(** Lines 116-123 of [main]: every name of the registry becomes a
    completable word, and the script generated for [commands] is written
    and printed. *)
Definition regenerate_completion : M unit :=
  w <- get_world ;;
  for_each (combine (seq 0 (List.length (ConfigParser.keys (config w))))
                    (ConfigParser.keys (config w)))
    (fun '(index, custom_command) =>
       when (negb (index =? 0)%nat)
         (w <- get_world ;;
          set_commands (commands w ++
                        [{| command_name := custom_command;
                            command_flags := [] |}])%list)) ;;
  w <- get_world ;;
  let autocomplete_file_text := generate_bash_autocomplete (commands w) in
  write_file "/etc/bash_completion.d/ahd.sh"
    (fun _ => autocomplete_file_text) ;;
  print autocomplete_file_text.

(** Lines 110-127 of [main]: the branch of [if arguments["register"]]. *)
Definition register (name : option string) (cmd : string)
           (paths : PathsValue) : M unit :=
  config_setitem name [("command", cmd); ("paths", str_of_paths paths)] ;;
  when (negb (os_name (platform env) =? "nt")) regenerate_completion ;;
  write_file CONFIG_FILE_PATH config_write.

(** Lines 130-141 of [main]: the branch taken when not registering. *)
Definition dispatch (name : option string) : M unit :=
  when (truthy name)
    (stored <- config_getitem name "paths" ;;
     if Py.startswith "[" stored then
       paths <- config_getitem name "paths" ;;
       let paths :=
         if os_name (platform env) =? "nt"
         then Py.replace "/" (os_sep (platform env)) paths else paths in
       let paths := Py.split "," (Py.slice_1_m1 paths) in
       for_each paths
         (fun current_path =>
            shown <- config_getitem name "command" ;;
            print (Py.replace "'" ""
                     ("Running: cd " ++ Py.strip current_path
                      ++ " && " ++ shown ++ " ")) ;;
            stored_command <- config_getitem name "command" ;;
            subprocess_Popen (instruction (Py.strip current_path) stored_command))
     else
       path <- config_getitem name "paths" ;;
       stored_command <- config_getitem name "command" ;;
       subprocess_Popen (instruction path stored_command)).

(** Lines 143-150 of [main]: [config --export] and [config --import]. *)
Definition config_command (arguments : Arguments) : M unit :=
  when (arg_export arguments)
    (print (os_curdir ++ os_sep (platform env) ++ ".ahdconfig") ;;
     write_file (os_curdir ++ os_sep (platform env) ++ ".ahdconfig")
       config_write) ;;
  match arg_import arguments with
  | Some source =>
      when (negb (source =? ""))
        (text <- read_file source ;;
         config_read (file_lines text))
  | None => ret tt
  end.

(** [main], statement by statement. *)
Definition main (arguments : Arguments) : M unit :=
  when (sys_argv_len arguments =? 1)%nat
    (print (ConfigParser.nl ++ " " ++ usage) ;; exit) ;;
  load_store ;;
  when (arg_docs arguments)
    (webbrowser_open_new "https://ahd.readthedocs.io" ;; exit) ;;
  let paths :=
    match arg_paths arguments with
    | Some given =>
        if given =? "" then PathsStr ""
        else PathsList (_preprocess_paths given)
    | None => PathsStr ""
    end in
  let cmd :=
    match arg_command arguments with
    | Some given => given
    | None => ""
    end in
  cmd <- (if "." =? cmd
          then config_getitem (arg_name arguments) "command"
          else ret cmd) ;;
  (if arg_register arguments
   then register (arg_name arguments) cmd paths
   else dispatch (arg_name arguments)) ;;
  when (arg_config arguments) (config_command arguments) ;;
  os_chdir CURRENT_PATH.

End Program.

(** ** A reader and a generator to run the program with

    The properties are proved for every [Library].  To run [main] on
    concrete files, [IniReader.read] follows [ConfigParser._read] with the
    settings of [ConfigParser()] (comment prefixes [#] and [;], delimiters
    [=] and [:], strict, empty lines kept in values) on text whose lines
    end in a line feed. *)

Module IniReader.

Import ConfigParser.

(** A value while a source is read: a [str] from before, or the list of the
    lines read so far. *)
Definition pending : Type := (string + list string)%type.

Inductive Cursor : Type :=
| NoSection
| InDefaults
| InSection (name : string).

Record State : Type := {
  st_defaults : dict pending;
  st_sections : dict (dict pending);
  cursect : Cursor;
  sectname : string;
  optname : option string;
  indent_level : option nat;
  added_sections : list string;
  added_options : list (string * string);
  bad_lines : bool
}.

Definition start (cfg : ConfigParser.t) : State :=
  {| st_defaults := map (fun kv => (fst kv, inl (snd kv))) (_defaults cfg);
     st_sections :=
       map (fun s => (fst s, map (fun kv => (fst kv, inl (snd kv))) (snd s)))
           (_sections cfg);
     cursect := NoSection; sectname := ""; optname := None;
     indent_level := Some 0; added_sections := []; added_options := [];
     bad_lines := false |}.

Definition cur_dict (st : State) : dict pending :=
  match cursect st with
  | NoSection => []
  | InDefaults => st_defaults st
  | InSection n =>
      match dict_get (st_sections st) n with Some d => d | None => [] end
  end.

Definition with_cur_dict (st : State) (d : dict pending) : State :=
  match cursect st with
  | NoSection => st
  | InDefaults =>
      {| st_defaults := d; st_sections := st_sections st;
         cursect := cursect st; sectname := sectname st; optname := optname st;
         indent_level := indent_level st;
         added_sections := added_sections st;
         added_options := added_options st; bad_lines := bad_lines st |}
  | InSection n =>
      {| st_defaults := st_defaults st;
         st_sections := dict_set (st_sections st) n d;
         cursect := cursect st; sectname := sectname st; optname := optname st;
         indent_level := indent_level st;
         added_sections := added_sections st;
         added_options := added_options st; bad_lines := bad_lines st |}
  end.

(** [cursect[optname].append(text)]. *)
Definition append_line (st : State) (o text : string) : State :=
  match dict_get (cur_dict st) o with
  | Some (inr lines) =>
      with_cur_dict st (dict_set (cur_dict st) o (inr (lines ++ [text])%list))
  | _ => st
  end.

Definition is_comment (line : string) : bool :=
  Py.startswith "#" (Py.strip line) || Py.startswith ";" (Py.strip line).

(** The position of the first character that is no white space. *)
Fixpoint first_nonspace (line : string) : nat :=
  match line with
  | EmptyString => 0
  | String c r => if Py.isspace c then S (first_nonspace r) else 0
  end.

(** The text up to the last closing bracket, when there is one. *)
Fixpoint upto_last_rbracket (s : string) : option string :=
  match s with
  | EmptyString => None
  | String c r =>
      match upto_last_rbracket r with
      | Some t => Some (String c t)
      | None => if Ascii.eqb c "]" then Some EmptyString else None
      end
  end.

(** [SECTCRE.match(value)]: the header between the first character, an
    opening bracket, and the last closing bracket. *)
Definition section_header (value : string) : option string :=
  match value with
  | String c r =>
      if Ascii.eqb c "[" then
        match upto_last_rbracket r with
        | Some (String h0 h) => Some (String h0 h)
        | _ => None
        end
      else None
  | EmptyString => None
  end.

(** The text before the first delimiter and the text after it. *)
Fixpoint cut_at_delimiter (s : string) : option (string * string) :=
  match s with
  | EmptyString => None
  | String c r =>
      if Ascii.eqb c "=" || Ascii.eqb c ":" then Some (EmptyString, r)
      else match cut_at_delimiter r with
           | Some (a, b) => Some (String c a, b)
           | None => None
           end
  end.

Definition truthy_name (o : option string) : option string :=
  match o with
  | Some EmptyString => None
  | other => other
  end.

Definition in_pairs (p : string * string) (l : list (string * string)) : bool :=
  existsb (fun q => (fst q =? fst p) && (snd q =? snd p)) l.

Definition in_names (n : string) (l : list string) : bool :=
  existsb (fun m => m =? n) l.

Definition set_cursor (st : State) (c : Cursor) (name : string)
           (sections : dict (dict pending)) (added : list string) : State :=
  {| st_defaults := st_defaults st; st_sections := sections;
     cursect := c; sectname := name; optname := None;
     indent_level := indent_level st;
     added_sections := added; added_options := added_options st;
     bad_lines := bad_lines st |}.

Definition set_indent (st : State) (i : option nat) : State :=
  {| st_defaults := st_defaults st; st_sections := st_sections st;
     cursect := cursect st; sectname := sectname st; optname := optname st;
     indent_level := i;
     added_sections := added_sections st;
     added_options := added_options st; bad_lines := bad_lines st |}.

Definition set_option (st : State) (o : string) (bad : bool) : State :=
  {| st_defaults := st_defaults st; st_sections := st_sections st;
     cursect := cursect st; sectname := sectname st; optname := Some o;
     indent_level := indent_level st;
     added_sections := added_sections st;
     added_options := ((sectname st, o) :: added_options st)%list;
     bad_lines := bad_lines st || bad |}.

Definition mark_bad (st : State) : State :=
  {| st_defaults := st_defaults st; st_sections := st_sections st;
     cursect := cursect st; sectname := sectname st; optname := optname st;
     indent_level := indent_level st;
     added_sections := added_sections st;
     added_options := added_options st; bad_lines := true |}.

(** One turn of the loop of [_read]. *)
Definition step (source : string) (lineno : nat) (line : string) (st : State)
  : Exn + State :=
  let value := if is_comment line then "" else Py.strip line in
  if value =? "" then
    if is_comment line then inr st
    else match cursect st, truthy_name (optname st) with
         | NoSection, _ => inr st
         | _, Some o => inr (append_line st o "")
         | _, None => inr st
         end
  else
    let cur_indent_level := first_nonspace line in
    let continuation :=
      match cursect st, truthy_name (optname st), indent_level st with
      | NoSection, _, _ => None
      | _, Some o, Some i => if (i <? cur_indent_level)%nat then Some o else None
      | _, _, _ => None
      end in
    match continuation with
    | Some o => inr (append_line st o value)
    | None =>
        let st := set_indent st (Some cur_indent_level) in
        match section_header value with
        | Some name =>
            if dict_mem (st_sections st) name then
              if in_names name (added_sections st)
              then inl (DuplicateSectionError name)
              else inr (set_cursor st (InSection name) name (st_sections st)
                                   (name :: added_sections st)%list)
            else if name =? default_section
            then inr (set_cursor st InDefaults name (st_sections st)
                                 (added_sections st))
            else inr (set_cursor st (InSection name) name
                                 (dict_set (st_sections st) name [])
                                 (name :: added_sections st)%list)
        | None =>
            match cursect st with
            | NoSection => inl (MissingSectionHeaderError source lineno)
            | _ =>
                match cut_at_delimiter value with
                | None => inr (mark_bad st)
                | Some (before, after) =>
                    let o := optionxform (Py.rstrip before) in
                    if in_pairs (sectname st, o) (added_options st)
                    then inl (DuplicateOptionError (sectname st) o)
                    else
                      let st := set_option st o (Py.rstrip before =? "") in
                      inr (with_cur_dict st
                             (dict_set (cur_dict st) o (inr [Py.strip after])))
                end
            end
        end
    end.

Fixpoint steps (source : string) (lineno : nat) (lines : list string)
         (st : State) : Exn + State :=
  match lines with
  | [] => inr st
  | line :: more =>
      match step source lineno line st with
      | inl e => inl e
      | inr st' => steps source (S lineno) more st'
      end
  end.

(** [_join_multiline_values] on one value. *)
Definition joined (v : pending) : string :=
  match v with
  | inl s => s
  | inr lines => Py.rstrip (Py.join nl lines)
  end.

Definition finish (st : State) : ConfigParser.t :=
  {| _defaults := map (fun kv => (fst kv, joined (snd kv))) (st_defaults st);
     _sections :=
       map (fun s => (fst s, map (fun kv => (fst kv, joined (snd kv))) (snd s)))
           (st_sections st) |}.

Definition read (source text : string) (cfg : ConfigParser.t)
  : Exn + ConfigParser.t :=
  match steps source 1 (file_lines text) (start cfg) with
  | inl e => inl e
  | inr st => if bad_lines st then inl (ParsingError source)
              else inr (finish st)
  end.

End IniReader.

(** Modelled from the spec: [generate_bash_autocomplete] of the package's
    autocomplete module, which is not among the sources.  The spec asks for
    a script body that names every built-in subcommand with its flags and
    every registered command name with no flags; here each word takes one
    line, followed by its flags. *)
Definition spec_generate_bash_autocomplete (words : list command) : string :=
  String.concat ""
    (map (fun c => Py.join " " (command_name c :: command_flags c)
                   ++ ConfigParser.nl) words).

#[export] Instance reference_library : Library := {
  generate_bash_autocomplete := spec_generate_bash_autocomplete;
  read_text := IniReader.read
}.

(** ** Runs *)

(** The module-level state when [main] starts: [config = ConfigParser()],
    [commands] with the two built-in subcommands, nothing traced yet. *)
Definition module_init (fs : string -> option string) (dir : string) : World :=
  {| config := ConfigParser.empty;
     commands := [ {| command_name := "docs";
                      command_flags := ["-a"; "--api"; "-o"; "--offline"] |};
                   {| command_name := "register"; command_flags := [] |} ];
     files := fs; cwd := dir; trace := [] |}.

(** The argument dictionaries of the usage patterns that reach the body of
    [main]. *)
Definition no_arguments : Arguments :=
  {| sys_argv_len := 1; arg_docs := false; arg_config := false;
     arg_register := false; arg_export := false; arg_import := None;
     arg_name := None; arg_command := None; arg_paths := None |}.

Definition ahd_docs : Arguments :=
  {| sys_argv_len := 2; arg_docs := true; arg_config := false;
     arg_register := false; arg_export := false; arg_import := None;
     arg_name := None; arg_command := None; arg_paths := None |}.

Definition ahd_config (export : bool) (import : option string) : Arguments :=
  {| sys_argv_len := 2; arg_docs := false; arg_config := true;
     arg_register := false; arg_export := export; arg_import := import;
     arg_name := None; arg_command := None; arg_paths := None |}.

Definition ahd_register (name : string) (cmd paths : option string)
  : Arguments :=
  {| sys_argv_len := 3; arg_docs := false; arg_config := false;
     arg_register := true; arg_export := false; arg_import := None;
     arg_name := Some name; arg_command := cmd; arg_paths := paths |}.

Definition ahd_invoke (name : string) (cmd paths : option string)
  : Arguments :=
  {| sys_argv_len := 2; arg_docs := false; arg_config := false;
     arg_register := false; arg_export := false; arg_import := None;
     arg_name := Some name; arg_command := cmd; arg_paths := paths |}.

(** The subprocesses a trace started, in order. *)
Definition launched (tr : list Event) : list string :=
  flat_map (fun e => match e with Popen args _ => [args] | _ => [] end) tr.

(** A posix host on which every file can be written and a path names the
    file of the same text. *)
Definition plain_posix : Env :=
  {| platform := Posix; module_dir := "/opt/ahd";
     realpath := fun _ path => path;
     open_w_error := fun _ => None |}.

Definition no_files : string -> option string := fun _ => None.

Definition one_file (name text : string) : string -> option string :=
  fun f => if f =? name then Some text else None.

(** ** The vocabulary of the properties *)

(** The world with more events traced. *)
Definition add_events (w : World) (evs : list Event) : World :=
  {| config := config w; commands := commands w; files := files w;
     cwd := cwd w; trace := (trace w ++ evs)%list |}.

(** What the loop of the dispatcher traces for a list of path entries:
    the line it prints and the child it starts, entry by entry. *)
Definition dispatch_events (cmd : string) (entries : list string)
  : list Event :=
  flat_map
    (fun current_path =>
       [Print (Py.replace "'" ""
                 ("Running: cd " ++ Py.strip current_path
                  ++ " && " ++ cmd ++ " "));
        Popen (Py.replace "'" ""
                 ("cd " ++ Py.strip current_path ++ " && " ++ cmd ++ " "))
              true])
    entries.

(** Lines 132-135 of [main]: the entries of a bracketed path
    specification. *)
Definition bracket_body (p : Platform) (stored : string) : string :=
  Py.slice_1_m1
    (if os_name p =? "nt" then Py.replace "/" (os_sep p) stored else stored).

Definition resolved_paths (p : Platform) (stored : string) : list string :=
  Py.split "," (bracket_body p stored).

(** Lines 131-141 of [main]: what the dispatcher traces for an entry whose
    paths read back as [stored] and whose command reads back as
    [stored_command]: the loop over the entries of a bracketed text, or the
    one child of any other text. *)
Definition dispatched (p : Platform) (stored stored_command : string)
  : list Event :=
  if Py.startswith "[" stored
  then dispatch_events stored_command (resolved_paths p stored)
  else [Popen (instruction stored stored_command) true].


(** The world with another parser state in [config]. *)
Definition with_config (w : World) (c : ConfigParser.t) : World :=
  {| config := c; commands := commands w; files := files w;
     cwd := cwd w; trace := trace w |}.

(** Lines 98-104 of [main]: what is stored for the paths and the command
    given on the command line. *)
Definition paths_argument (given : option string) : string :=
  str_of_paths
    match given with
    | Some p => if p =? "" then PathsStr "" else PathsList (_preprocess_paths p)
    | None => PathsStr ""
    end.

Definition command_argument (given : option string) : string :=
  match given with
  | Some c => c
  | None => ""
  end.

Definition completion_script : string := "/etc/bash_completion.d/ahd.sh".

(** A computation keeps an observation [f] of the world when no run of it
    changes [f]. *)
Definition keeps {X A : Type} (f : World -> X) (m : M A) : Prop :=
  forall w, f (fst (m w)) = f w.

(** The trace a computation adds holds only events that satisfy [P]. *)
Definition emits {A : Type} (P : Event -> Prop) (m : M A) : Prop :=
  forall w, exists tr, trace (fst (m w)) = (trace w ++ tr)%list /\ Forall P tr.

(** What the parent does about directories and children: a [chdir] only to
    [.], and no wait. *)
Definition stays_put (e : Event) : Prop :=
  match e with
  | Chdir path => path = os_curdir
  | ProcessWait _ => False
  | _ => True
  end.

(** What [repr] writes besides the characters of the text: the quotes, the
    backslash and the letters and digits of its escapes. *)
Definition repr_alphabet : string := "'\tnrx0123456789abcdef".


(** The mapping [set] writes to for a section: the defaults for the empty
    name and for [DEFAULT], the section's own otherwise. *)
Definition sectdict (cfg : ConfigParser.t) (section : string)
  : ConfigParser.dict string :=
  if (section =? "") || (section =? ConfigParser.default_section)
  then ConfigParser._defaults cfg
  else ConfigParser.section_dict cfg section.

(** Line 134 of [main]: on [nt] the slashes of the stored text become the
    separator of the platform. *)
Definition native (p : Platform) (text : string) : string :=
  if os_name p =? "nt" then Py.replace "/" (os_sep p) text else text.

(** The directory the dispatcher composes for a path that was stored in a
    list: its [repr], made native, without the single quotes. *)
Definition directory_of (p : Platform) (path : string) : string :=
  Py.replace "'" "" (native p (Py.repr path)).

Definition first_char (s : string) : option ascii :=
  match s with
  | EmptyString => None
  | String c _ => Some c
  end.

Fixpoint last_char (s : string) : option ascii :=
  match s with
  | EmptyString => None
  | String c r => match last_char r with None => Some c | found => found end
  end.

Definition not_space (c : option ascii) : bool :=
  match c with
  | Some c => negb (Py.isspace c)
  | None => true
  end.

(** A text with no white space at either end. *)
Definition trimmed (s : string) : bool :=
  not_space (first_char s) && not_space (last_char s).


(** What the dispatcher makes of one character of a path stored between
    single quotes: its escape by [repr], made native, without the single
    quotes. *)
Definition escaped (p : Platform) (c : ascii) : string :=
  Py.replace "'" "" (native p (Py.repr_char "'" c)).

(** The instruction composed for a path that was stored in a list. *)
Definition cd_and_run (p : Platform) (cmd path : string) : string :=
  "cd " ++ directory_of p path ++ " && " ++ Py.replace "'" "" cmd ++ " ".

(** ** Hosts and stores to run the program on *)

(** A posix host on which the completion script cannot be written. *)
Definition locked_completion : Env :=
  {| platform := Posix; module_dir := "/opt/ahd";
     realpath := fun _ path => path;
     open_w_error :=
       fun f => if f =? completion_script then Some (PermissionError f)
                else None |}.

Definition store_path : string := "/opt/ahd/.ahdconfig".

(** The store after [ahd register build "make all" "/a,/b"]. *)
Definition build_store : string :=
  "[build]
command = make all
paths = ['/a', '/b']

".

(** The store after [ahd register lint "eslint ." ""]. *)
Definition lint_store : string :=
  "[lint]
command = eslint .
paths = 

".

Definition home : string := "/home/user".

(** The world with other completable words in [commands]. *)
Definition with_commands (w : World) (l : list command) : World :=
  {| config := config w; commands := l; files := files w;
     cwd := cwd w; trace := trace w |}.

(** A registered name as a completable word: no flags. *)
Definition word (custom_command : string) : command :=
  {| command_name := custom_command; command_flags := [] |}.

(** Every file of [before] is still a file of [after]. *)
Definition extends (before after : string -> option string) : Prop :=
  forall f, before f <> None -> after f <> None.

(** A computation that deletes no file. *)
Definition grows {A : Type} (m : M A) : Prop :=
  forall w, extends (files w) (files (fst (m w))).

(** An [nt] host on which every file can be written. *)
Definition plain_nt : Env :=
  {| platform := Nt; module_dir := "C:\ahd";
     realpath := fun _ path => path;
     open_w_error := fun _ => None |}.


(** A posix host on which a relative path names the file of that text in
    the current directory, as [open] resolves it. *)
Definition resolve (dir path : string) : string :=
  if Py.startswith "/" path then path
  else if String.prefix "./" path
       then dir ++ "/" ++ String.substring 2 (String.length path - 2) path
       else dir ++ "/" ++ path.

Definition rooted_posix : Env :=
  {| platform := Posix; module_dir := "/opt/ahd";
     realpath := resolve;
     open_w_error := fun _ => None |}.

(** A store written by hand: a comment line, and no blanks around [=]. *)
Definition commented_store : string :=
  "# my commands
[build]
command=make all
paths=/a
".

(** The same registry as [ConfigParser.write] renders it. *)
Definition rendered_store : string :=
  "[build]
command = make all
paths = /a

".

(** The package directory with the hand-written store and a file to import,
    and a process started inside it. *)
Definition in_package_directory : World :=
  module_init
    (fun f => if f =? store_path then Some commented_store
              else if f =? "/opt/ahd/backup.ini" then Some lint_store
              else None)
    "/opt/ahd".

(** * Properties *)

(** ** The run monad *)

Lemma bind_Ok {A B : Type} (m : M A) (k : A -> M B) (w w1 : World) (a : A) :
  m w = (w1, Ok a) -> bind m k w = k a w1.
Proof. intros H. unfold bind. rewrite H. reflexivity. Qed.

Lemma bind_Raised {A B : Type} (m : M A) (k : A -> M B) (w w1 : World) (e : Exn) :
  m w = (w1, Raised e) -> bind m k w = (w1, Raised e).
Proof. intros H. unfold bind. rewrite H. reflexivity. Qed.

Lemma bind_Exited {A B : Type} (m : M A) (k : A -> M B) (w w1 : World) :
  m w = (w1, Exited) -> bind m k w = (w1, Exited).
Proof. intros H. unfold bind. rewrite H. reflexivity. Qed.

Lemma bind_ext {A B : Type} (m : M A) (k1 k2 : A -> M B) (w : World) :
  (forall a w1, k1 a w1 = k2 a w1) -> bind m k1 w = bind m k2 w.
Proof.
  intros H. unfold bind. destruct (m w) as [w1 [a | e |]]; auto.
Qed.

Lemma bind_Ok_inv {A B : Type} (m : M A) (k : A -> M B) (w w2 : World) (b : B) :
  bind m k w = (w2, Ok b) ->
  exists w1 a, m w = (w1, Ok a) /\ k a w1 = (w2, Ok b).
Proof.
  unfold bind. destruct (m w) as [w1 [a | e |]]; intros H; try discriminate.
  exists w1, a. split; [reflexivity | exact H].
Qed.


Lemma keeps_ret {X A : Type} (f : World -> X) (a : A) : keeps f (ret a).
Proof. intros w. reflexivity. Qed.

Lemma keeps_raise {X A : Type} (f : World -> X) (e : Exn) :
  keeps f (@raise A e).
Proof. intros w. reflexivity. Qed.

Lemma keeps_exit {X A : Type} (f : World -> X) : keeps f (@exit A).
Proof. intros w. reflexivity. Qed.

Lemma keeps_get_world {X : Type} (f : World -> X) : keeps f get_world.
Proof. intros w. reflexivity. Qed.

Lemma keeps_bind {X A B : Type} (f : World -> X) (m : M A) (k : A -> M B) :
  keeps f m -> (forall a, keeps f (k a)) -> keeps f (bind m k).
Proof.
  intros Hm Hk w. unfold bind. specialize (Hm w).
  destruct (m w) as [w1 [a | e |]]; simpl in *; try assumption.
  rewrite Hk. assumption.
Qed.

(** After [get_world] the continuation runs in the world it was handed. *)
Lemma keeps_bind_get_world {X B : Type} (f : World -> X) (k : World -> M B) :
  (forall w, keeps f (k w)) -> keeps f (bind get_world k).
Proof. intros Hk. apply keeps_bind; [apply keeps_get_world | exact Hk]. Qed.

Lemma keeps_when {X : Type} (f : World -> X) (b : bool) (m : M unit) :
  keeps f m -> keeps f (when b m).
Proof. intros H. destruct b; [exact H | apply keeps_ret]. Qed.

Lemma keeps_for_each {X A : Type} (f : World -> X) (l : list A)
      (body : A -> M unit) :
  (forall a, keeps f (body a)) -> keeps f (for_each l body).
Proof.
  intros H. induction l as [| a l IH]; simpl.
  - apply keeps_ret.
  - apply keeps_bind; [apply H | intros _; exact IH].
Qed.

Lemma keeps_emit_cwd (e : Event) : keeps cwd (emit e).
Proof. intros w. reflexivity. Qed.

Lemma keeps_emit {X : Type} (f : World -> X) (e : Event) :
  (forall c l fs d tr tr',
      f {| config := c; commands := l; files := fs; cwd := d; trace := tr |}
      = f {| config := c; commands := l; files := fs; cwd := d; trace := tr' |}) ->
  keeps f (emit e).
Proof. intros H [c l fs d tr]. apply H. Qed.

(** [os.chdir(CURRENT_PATH)] traces the call and stays where it is. *)
Lemma os_chdir_curdir (w : World) :
  os_chdir CURRENT_PATH w = (add_events w [Chdir os_curdir], Ok tt).
Proof. reflexivity. Qed.

Lemma keeps_os_chdir_curdir {X : Type} (f : World -> X) :
  (forall w evs, f (add_events w evs) = f w) ->
  keeps f (os_chdir CURRENT_PATH).
Proof. intros H w. rewrite os_chdir_curdir. apply H. Qed.

(** Each observation and the primitives that leave it alone. *)
Ltac keeps_step :=
  match goal with
  | |- keeps _ (ret _) => apply keeps_ret
  | |- keeps _ (raise _) => apply keeps_raise
  | |- keeps _ exit => apply keeps_exit
  | |- keeps _ get_world => apply keeps_get_world
  | |- keeps _ (emit _) => intros [? ? ? ? ?]; reflexivity
  | |- keeps _ (set_config _) => intros [? ? ? ? ?]; reflexivity
  | |- keeps _ (set_commands _) => intros [? ? ? ? ?]; reflexivity
  | |- keeps _ (set_file _ _) => intros [? ? ? ? ?]; reflexivity
  | |- keeps _ (os_chdir CURRENT_PATH) =>
      apply keeps_os_chdir_curdir; intros [? ? ? ? ?] ?; reflexivity
  | |- keeps _ (bind _ _) => apply keeps_bind; [ | intros ? ]
  | |- keeps _ (when _ _) => apply keeps_when
  | |- keeps _ (for_each _ _) => apply keeps_for_each; intros ?
  | |- keeps _ (match ?x with _ => _ end) => destruct x
  end.

Ltac keeps_auto := repeat keeps_step.


Lemma emits_silent {A : Type} (P : Event -> Prop) (m : M A) :
  keeps trace m -> emits P m.
Proof.
  intros H w. exists []. rewrite H, app_nil_r. split; [reflexivity | constructor].
Qed.

Lemma emits_emit (P : Event -> Prop) (e : Event) : P e -> emits P (emit e).
Proof.
  intros H w. exists [e]. split; [reflexivity | repeat constructor; exact H].
Qed.

Lemma emits_bind {A B : Type} (P : Event -> Prop) (m : M A) (k : A -> M B) :
  emits P m -> (forall a, emits P (k a)) -> emits P (bind m k).
Proof.
  intros Hm Hk w. unfold bind. destruct (Hm w) as [tr [E F]].
  destruct (m w) as [w1 [a | e |]]; simpl in *; try (exists tr; split; assumption).
  destruct (Hk a w1) as [tr' [E' F']].
  exists (tr ++ tr')%list. split.
  - rewrite E', E, app_assoc. reflexivity.
  - apply Forall_app. split; assumption.
Qed.

Lemma emits_when (P : Event -> Prop) (b : bool) (m : M unit) :
  emits P m -> emits P (when b m).
Proof.
  intros H. destruct b; [exact H | apply emits_silent; apply keeps_ret].
Qed.

Lemma emits_for_each {A : Type} (P : Event -> Prop) (l : list A)
      (body : A -> M unit) :
  (forall a, emits P (body a)) -> emits P (for_each l body).
Proof.
  intros H. induction l as [| a l IH]; simpl.
  - apply emits_silent, keeps_ret.
  - apply emits_bind; [apply H | intros _; exact IH].
Qed.

Lemma emits_os_chdir_curdir (P : Event -> Prop) :
  P (Chdir os_curdir) -> emits P (os_chdir CURRENT_PATH).
Proof.
  intros H w. rewrite os_chdir_curdir. exists [Chdir os_curdir].
  split; [reflexivity | repeat constructor; exact H].
Qed.

Ltac emits_step :=
  match goal with
  | |- emits _ (ret _) => apply emits_silent, keeps_ret
  | |- emits _ (raise _) => apply emits_silent, keeps_raise
  | |- emits _ exit => apply emits_silent, keeps_exit
  | |- emits _ get_world => apply emits_silent, keeps_get_world
  | |- emits _ (emit _) => apply emits_emit; exact I
  | |- emits _ (set_config _) =>
      apply emits_silent; intros [? ? ? ? ?]; reflexivity
  | |- emits _ (set_commands _) =>
      apply emits_silent; intros [? ? ? ? ?]; reflexivity
  | |- emits _ (set_file _ _) =>
      apply emits_silent; intros [? ? ? ? ?]; reflexivity
  | |- emits _ (os_chdir CURRENT_PATH) =>
      apply emits_os_chdir_curdir; reflexivity
  | |- emits _ (bind _ _) => apply emits_bind; [ | intros ? ]
  | |- emits _ (when _ _) => apply emits_when
  | |- emits _ (for_each _ _) => apply emits_for_each; intros ?
  | |- emits _ (match ?x with _ => _ end) => destruct x
  end.

Ltac emits_auto := repeat emits_step.


Section Properties.

Context {lib : Library}.
Variable env : Env.

Ltac unfold_program :=
  unfold main, load_store, register, regenerate_completion, dispatch,
    config_command,
    os_path_exists, write_file, read_file, config_read, config_read_one,
    config_getitem, config_setitem, print, subprocess_Popen,
    webbrowser_open_new.

Lemma main_keeps_cwd (arguments : Arguments) : keeps cwd (main env arguments).
Proof.
  unfold_program.
  keeps_auto.
Qed.

Lemma main_stays_put (arguments : Arguments) :
  emits stays_put (main env arguments).
Proof.
  unfold_program.
  emits_auto.
Qed.

(** C10: no run of [main], whatever its arguments, changes the working
    directory of the process: the directory after the run is the one
    before, the only [chdir] traced is the last statement's, to [.], and
    the parent waits for no child.  Directories are changed only in the
    text handed to [Popen]. *)
Theorem parent_directory_never_changes (arguments : Arguments) (w : World) :
  cwd (fst (main env arguments w)) = cwd w
  /\ exists tr,
       trace (fst (main env arguments w)) = (trace w ++ tr)%list
       /\ Forall stays_put tr.
Proof.
  split.
  - apply main_keeps_cwd.
  - apply main_stays_put.
Qed.

(** Without the [.] marker, the command and paths given beside an invoked
    name are never looked at: the run is the run with the name alone, in
    every world and whatever its outcome. *)
Lemma invoke_arguments_unused
        (name : string) (cmd paths : option string) (w : World) :
  cmd <> Some "." ->
  main env (ahd_invoke name cmd paths) w
  = main env (ahd_invoke name None None) w.
Proof.
  intros Hcmd. unfold main. cbn [arg_command arg_paths arg_register arg_name arg_docs arg_config sys_argv_len ahd_invoke].
  assert (E : ("." =? match cmd with Some given => given | None => "" end) = false).
  { destruct cmd as [c |]; [| reflexivity].
    apply String.eqb_neq. intros H. apply Hcmd. rewrite H. reflexivity. }
  rewrite E. reflexivity.
Qed.


(** ** Running the statements of [main] *)

Lemma bind_ret {A B : Type} (a : A) (k : A -> M B) (w : World) :
  bind (ret a) k w = k a w.
Proof. reflexivity. Qed.

Lemma bind_get_world {B : Type} (k : World -> M B) (w : World) :
  bind get_world k w = k w w.
Proof. reflexivity. Qed.

Lemma emit_run (e : Event) (w : World) : emit e w = (add_events w [e], Ok tt).
Proof. reflexivity. Qed.

Lemma add_events_nil (w : World) : add_events w [] = w.
Proof. destruct w. unfold add_events. simpl. rewrite app_nil_r. reflexivity. Qed.

Lemma add_events_app (w : World) (a b : list Event) :
  add_events (add_events w a) b = add_events w (a ++ b).
Proof. unfold add_events. simpl. rewrite app_assoc. reflexivity. Qed.

Lemma config_getitem_Ok (name : option string) (opt v : string) (w : World) :
  ConfigParser.getitem (config w) name opt = inr v ->
  config_getitem name opt w = (w, Ok v).
Proof.
  intros H. unfold config_getitem. rewrite bind_get_world, H. reflexivity.
Qed.

Lemma config_getitem_Raised (name : option string) (opt : string) (e : Exn)
      (w : World) :
  ConfigParser.getitem (config w) name opt = inl e ->
  config_getitem name opt w = (w, Raised e).
Proof.
  intros H. unfold config_getitem. rewrite bind_get_world, H. reflexivity.
Qed.

Lemma dispatch_turn (name : option string) (cmd current_path : string)
      (w : World) :
  ConfigParser.getitem (config w) name "command" = inr cmd ->
  (shown <- config_getitem name "command" ;;
   print (Py.replace "'" ""
            ("Running: cd " ++ Py.strip current_path
             ++ " && " ++ shown ++ " ")) ;;
   stored_command <- config_getitem name "command" ;;
   subprocess_Popen (instruction (Py.strip current_path) stored_command)) w
  = (add_events w (dispatch_events cmd [current_path]), Ok tt).
Proof.
  intros H.
  erewrite bind_Ok by (apply config_getitem_Ok; exact H).
  unfold print, subprocess_Popen.
  erewrite bind_Ok by apply emit_run.
  erewrite bind_Ok by (apply config_getitem_Ok; exact H).
  rewrite emit_run, add_events_app. reflexivity.
Qed.

Lemma dispatch_loop (name : option string) (cmd : string) (dirs : list string)
      (w : World) :
  ConfigParser.getitem (config w) name "command" = inr cmd ->
  for_each dirs
    (fun current_path =>
       shown <- config_getitem name "command" ;;
       print (Py.replace "'" ""
                ("Running: cd " ++ Py.strip current_path
                 ++ " && " ++ shown ++ " ")) ;;
       stored_command <- config_getitem name "command" ;;
       subprocess_Popen (instruction (Py.strip current_path) stored_command)) w
  = (add_events w (dispatch_events cmd dirs), Ok tt).
Proof.
  revert w. induction dirs as [| d dirs IH]; intros w H.
  - simpl. rewrite add_events_nil. reflexivity.
  - cbn [for_each].
    erewrite bind_Ok by (apply dispatch_turn; exact H).
    rewrite IH by exact H. rewrite add_events_app. reflexivity.
Qed.

(** The directories the dispatcher resolves from a bracketed path
    specification. *)
Lemma dispatch_list (name stored cmd : string) (w : World) :
  name <> "" ->
  ConfigParser.getitem (config w) (Some name) "paths" = inr stored ->
  ConfigParser.getitem (config w) (Some name) "command" = inr cmd ->
  Py.startswith "[" stored = true ->
  dispatch env (Some name) w
  = (add_events w (dispatch_events cmd (resolved_paths (platform env) stored)),
     Ok tt).
Proof.
  intros Hname Hp Hc Hb. unfold dispatch.
  assert (T : truthy (Some name) = true).
  { simpl. apply negb_true_iff, String.eqb_neq. exact Hname. }
  rewrite T. cbn [when].
  rewrite (bind_Ok _ _ _ _ _ (config_getitem_Ok _ _ _ _ Hp)), Hb.
  rewrite (bind_Ok _ _ _ _ _ (config_getitem_Ok _ _ _ _ Hp)).
  apply dispatch_loop. exact Hc.
Qed.

Lemma dispatch_single (name stored cmd : string) (w : World) :
  name <> "" ->
  ConfigParser.getitem (config w) (Some name) "paths" = inr stored ->
  ConfigParser.getitem (config w) (Some name) "command" = inr cmd ->
  Py.startswith "[" stored = false ->
  dispatch env (Some name) w
  = (add_events w [Popen (instruction stored cmd) true], Ok tt).
Proof.
  intros Hname Hp Hc Hb. unfold dispatch.
  assert (T : truthy (Some name) = true).
  { simpl. apply negb_true_iff, String.eqb_neq. exact Hname. }
  rewrite T. cbn [when].
  rewrite (bind_Ok _ _ _ _ _ (config_getitem_Ok _ _ _ _ Hp)), Hb.
  rewrite (bind_Ok _ _ _ _ _ (config_getitem_Ok _ _ _ _ Hp)).
  rewrite (bind_Ok _ _ _ _ _ (config_getitem_Ok _ _ _ _ Hc)).
  reflexivity.
Qed.

(** An invocation is: load the store, look the command up when the
    shorthand is given, dispatch, return to the current directory. *)
Lemma main_invoke (name : string) (cmd paths : option string)
      (w w1 w2 : World) (stored_command : string) :
  load_store env w = (w1, Ok tt) ->
  ConfigParser.getitem (config w1) (Some name) "command" = inr stored_command ->
  dispatch env (Some name) w1 = (w2, Ok tt) ->
  main env (ahd_invoke name cmd paths) w
  = (add_events w2 [Chdir os_curdir], Ok tt).
Proof.
  intros Hl Hc Hd. unfold main.
  cbn [arg_command arg_paths arg_register arg_name arg_docs arg_config
       sys_argv_len ahd_invoke Nat.eqb when].
  rewrite bind_ret, (bind_Ok _ _ _ _ _ Hl), bind_ret.
  destruct ("." =? match cmd with Some given => given | None => "" end).
  - rewrite (bind_Ok _ _ _ _ _ (config_getitem_Ok _ _ _ _ Hc)).
    rewrite (bind_Ok _ _ _ _ _ Hd), bind_ret. apply os_chdir_curdir.
  - rewrite bind_ret, (bind_Ok _ _ _ _ _ Hd), bind_ret. apply os_chdir_curdir.
Qed.

(** ** Python strings: splitting and replacing *)

Lemma split_length (sep : ascii) (s : string) :
  List.length (Py.split sep s) = S (Py.count sep s).
Proof.
  induction s as [| c r IH]; [reflexivity |].
  cbn [Py.split Py.count]. destruct (Ascii.eqb c sep).
  - simpl. rewrite IH. reflexivity.
  - destruct (Py.split sep r) as [| h t]; simpl in *; [discriminate | exact IH].
Qed.

Lemma append_assoc (a b c : string) : (a ++ b) ++ c = a ++ (b ++ c).
Proof. induction a as [| x a IH]; simpl; [reflexivity | rewrite IH; reflexivity]. Qed.

Lemma append_empty_r (a : string) : a ++ "" = a.
Proof. induction a as [| x a IH]; simpl; [reflexivity | rewrite IH; reflexivity]. Qed.

Lemma replace_app (old : ascii) (new a b : string) :
  Py.replace old new (a ++ b) = Py.replace old new a ++ Py.replace old new b.
Proof.
  induction a as [| x a IH]; simpl; [reflexivity |].
  destruct (Ascii.eqb x old); rewrite IH.
  - rewrite append_assoc. reflexivity.
  - reflexivity.
Qed.

(** The instruction is [cd], the directory, [&&] and the command, the
    single quotes of both taken out. *)
Lemma instruction_parts (directory cmd : string) :
  instruction directory cmd
  = "cd " ++ Py.replace "'" "" directory ++ " && "
    ++ Py.replace "'" "" cmd ++ " ".
Proof.
  unfold instruction.
  change ("cd " ++ directory ++ " && " ++ cmd ++ " ")
    with ("cd " ++ (directory ++ (" && " ++ (cmd ++ " ")))).
  rewrite !replace_app. reflexivity.
Qed.

Lemma launched_app (a b : list Event) :
  launched (a ++ b) = (launched a ++ launched b)%list.
Proof. unfold launched. apply flat_map_app. Qed.

Lemma launched_dispatch_events (cmd : string) (entries : list string) :
  launched (dispatch_events cmd entries)
  = map (fun e => instruction (Py.strip e) cmd) entries.
Proof.
  induction entries as [| e l IH]; [reflexivity |].
  simpl. f_equal. exact IH.
Qed.

(** ** Loading *)

Lemma load_store_keeps_trace : keeps trace (load_store env).
Proof. unfold_program. keeps_auto. Qed.

Lemma load_store_keeps_cwd : keeps cwd (load_store env).
Proof. unfold_program. keeps_auto. Qed.

Lemma load_store_keeps_commands : keeps commands (load_store env).
Proof. unfold_program. keeps_auto. Qed.

(** A store that exists is read, not written. *)
Lemma load_store_reads (w : World) :
  files w (realpath env (cwd w) (CONFIG_FILE_PATH env)) <> None ->
  files (fst (load_store env w)) = files w.
Proof.
  intros H. unfold load_store, os_path_exists.
  rewrite bind_Ok with (w1 := w) (a := true).
  - revert w H. 
    assert (K : keeps files (config_read env [CONFIG_FILE_PATH env])).
    { unfold_program. keeps_auto. }
    intros w _. apply K.
  - rewrite bind_get_world.
    destruct (files w (realpath env (cwd w) (CONFIG_FILE_PATH env)));
      [reflexivity | contradiction].
Qed.

(** ** Dispatch *)


(** C8: when a registered name is invoked, whatever command and paths are
    given beside it (the [.] marker included, and any paths beside it), the
    run loads the store and then traces exactly what the dispatcher builds
    from the paths and the command read under the name in the registry,
    then the [chdir] to [.]: one printed line and one child per entry of a
    bracketed text, one child otherwise.  Nothing of the arguments is in
    it, and the run is the run with the name alone. *)
Theorem invocation_ignores_arguments
        (name : string) (cmd paths : option string) (w w1 : World)
        (stored stored_command : string) :
  name <> "" ->
  load_store env w = (w1, Ok tt) ->
  ConfigParser.getitem (config w1) (Some name) "paths" = inr stored ->
  ConfigParser.getitem (config w1) (Some name) "command" = inr stored_command ->
  main env (ahd_invoke name cmd paths) w
  = (add_events w1
       (dispatched (platform env) stored stored_command ++ [Chdir os_curdir]),
     Ok tt)
  /\ main env (ahd_invoke name cmd paths) w
     = main env (ahd_invoke name None None) w.
Proof.
  intros Hname Hl Hp Hc.
  assert (D : dispatch env (Some name) w1
              = (add_events w1 (dispatched (platform env) stored stored_command),
                 Ok tt)).
  { unfold dispatched. destruct (Py.startswith "[" stored) eqn:Hb.
    - apply dispatch_list; assumption.
    - apply dispatch_single; assumption. }
  assert (R : forall c p,
             main env (ahd_invoke name c p) w
             = (add_events w1
                  (dispatched (platform env) stored stored_command
                   ++ [Chdir os_curdir]), Ok tt)).
  { intros c p. rewrite <- add_events_app.
    apply (main_invoke name c p w w1 _ stored_command Hl Hc D). }
  split; [apply R |]. rewrite !R. reflexivity.
Qed.



(** ** Looking up a name the registry does not have *)

Lemma getitem_unknown (cfg : ConfigParser.t) (name opt : string) :
  ConfigParser.contains cfg (Some name) = false ->
  ConfigParser.getitem cfg (Some name) opt = inl (KeyError (Some name)).
Proof.
  unfold ConfigParser.contains, ConfigParser.getitem. intros H.
  apply orb_false_iff in H. destruct H as [H1 H2]. rewrite H1, H2. reflexivity.
Qed.

(** C1, as the code has it: when the loaded registry does not hold a name,
    invoking it (for a name that is not empty) and registering it with the
    [.] shorthand both end the run with [KeyError] of that name, raised by
    the parser and caught by nothing, in the world as loading left it. *)
Theorem unknown_name_raises_KeyError
        (name : string) (cmd paths : option string) (w w1 : World) :
  load_store env w = (w1, Ok tt) ->
  ConfigParser.contains (config w1) (Some name) = false ->
  (name <> "" ->
   main env (ahd_invoke name cmd paths) w
   = (w1, Raised (KeyError (Some name))))
  /\ main env (ahd_register name (Some ".") paths) w
     = (w1, Raised (KeyError (Some name))).
Proof.
  intros Hl Hn.
  pose proof (getitem_unknown _ _ "command" Hn) as Gc.
  pose proof (getitem_unknown _ _ "paths" Hn) as Gp.
  split.
  - intros Hname. unfold main.
    cbn [arg_command arg_paths arg_register arg_name arg_docs arg_config
         sys_argv_len ahd_invoke Nat.eqb when].
    rewrite bind_ret, (bind_Ok _ _ _ _ _ Hl), bind_ret.
    destruct ("." =? match cmd with Some given => given | None => "" end).
    + rewrite (bind_Raised _ _ _ _ _ (config_getitem_Raised _ _ _ _ Gc)).
      reflexivity.
    + rewrite bind_ret. apply bind_Raised. unfold dispatch.
      assert (T : truthy (Some name) = true).
      { simpl. apply negb_true_iff, String.eqb_neq. exact Hname. }
      rewrite T. cbn [when].
      apply bind_Raised. apply config_getitem_Raised. exact Gp.
  - unfold main.
    cbn [arg_command arg_paths arg_register arg_name arg_docs arg_config
         sys_argv_len ahd_register Nat.eqb when String.eqb Ascii.eqb Bool.eqb].
    rewrite bind_ret, (bind_Ok _ _ _ _ _ Hl), bind_ret.
    rewrite (bind_Raised _ _ _ _ _ (config_getitem_Raised _ _ _ _ Gc)).
    reflexivity.
Qed.

(** ** Registration *)

Lemma keeps_bind_tail {X A B : Type} (f : World -> X) (m : M A) (k : A -> M B)
      (w : World) :
  (forall a, keeps f (k a)) -> f (fst (bind m k w)) = f (fst (m w)).
Proof.
  intros Hk. unfold bind.
  destruct (m w) as [w1 [a | e |]]; simpl; try reflexivity. apply Hk.
Qed.

Lemma set_config_run (c : ConfigParser.t) (w : World) :
  set_config c w = (with_config w c, Ok tt).
Proof. reflexivity. Qed.

Lemma config_setitem_Ok (name : option string) (items : list (string * string))
      (c : ConfigParser.t) (w : World) :
  ConfigParser.setitem (config w) name items = (c, None) ->
  config_setitem name items w = (with_config w c, Ok tt).
Proof.
  intros H. unfold config_setitem. rewrite bind_get_world, H. reflexivity.
Qed.

(** The loop that adds the registered names to [commands] always ends, and
    touches nothing else. *)
Lemma commands_loop (l : list (nat * string)) (w : World) :
  exists w',
    for_each l
      (fun '(index, custom_command) =>
         when (negb (index =? 0)%nat)
           (w <- get_world ;;
            set_commands (commands w ++
                          [{| command_name := custom_command;
                              command_flags := [] |}])%list)) w
    = (w', Ok tt)
    /\ config w' = config w /\ files w' = files w
    /\ cwd w' = cwd w /\ trace w' = trace w.
Proof.
  revert w. induction l as [| [index custom_command] l IH]; intros w.
  - exists w. repeat split; reflexivity.
  - cbn [for_each].
    destruct (negb (index =? 0)%nat); cbn [when].
    + rewrite bind_Ok with
        (w1 := {| config := config w;
                  commands := (commands w ++
                               [{| command_name := custom_command;
                                   command_flags := [] |}])%list;
                  files := files w; cwd := cwd w; trace := trace w |})
        (a := tt) by reflexivity.
      destruct (IH {| config := config w;
                  commands := (commands w ++
                               [{| command_name := custom_command;
                                   command_flags := [] |}])%list;
                  files := files w; cwd := cwd w; trace := trace w |})
        as [w' [E [H1 [H2 [H3 H4]]]]].
      exists w'. rewrite E. repeat split; assumption.
    + rewrite bind_ret. apply IH.
Qed.

(** C5, as the code has it: on a posix host where the completion script
    cannot be opened for writing, a registration whose entry went into the
    registry ends the run with the exception of that [open]; the files are
    as loading left them, so the store does not hold the entry, which is in
    the registry in memory only.  The command of the entry is the one
    given, or with the [.] shorthand the one read under the name. *)
Theorem completion_failure_aborts_registration
        (name : string) (cmd paths : option string) (e : Exn) (w w1 : World)
        (c : string) (cfg : ConfigParser.t) :
  platform env = Posix ->
  open_w_error env (realpath env (cwd w) completion_script) = Some e ->
  load_store env w = (w1, Ok tt) ->
  (if "." =? command_argument cmd
   then ConfigParser.getitem (config w1) (Some name) "command" = inr c
   else c = command_argument cmd) ->
  ConfigParser.setitem (config w1) (Some name)
    [("command", c); ("paths", paths_argument paths)]
  = (cfg, None) ->
  exists w2,
    main env (ahd_register name cmd paths) w = (w2, Raised e)
    /\ files w2 = files w1 /\ config w2 = cfg /\ trace w2 = trace w.
Proof.
  intros Hposix Hdenied Hl Hcmd Hset.
  assert (C : cwd w1 = cwd w).
  { pose proof (load_store_keeps_cwd w) as K. rewrite Hl in K. exact K. }
  assert (T : trace w1 = trace w).
  { pose proof (load_store_keeps_trace w) as K. rewrite Hl in K. exact K. }
  unfold main.
  cbn [arg_command arg_paths arg_register arg_name arg_docs arg_config
       sys_argv_len ahd_register Nat.eqb when].
  rewrite bind_ret, (bind_Ok _ _ _ _ _ Hl), bind_ret.
  assert (E : (if "." =? match cmd with Some given => given | None => "" end
               then config_getitem (Some name) "command"
               else ret match cmd with Some given => given | None => "" end) w1
              = (w1, Ok c)).
  { unfold command_argument in Hcmd.
    destruct ("." =? match cmd with Some given => given | None => "" end).
    - apply config_getitem_Ok, Hcmd.
    - rewrite Hcmd. reflexivity. }
  rewrite (bind_Ok _ _ _ _ _ E). unfold register.
  unfold paths_argument in Hset.
  rewrite Hposix. change (os_name Posix =? "nt") with false. cbn [negb when].
  unfold regenerate_completion.
  destruct (commands_loop
              (combine (seq 0 (List.length (ConfigParser.keys cfg)))
                       (ConfigParser.keys cfg))
              (with_config w1 cfg)) as [w2 [L [H1 [H2 [H3 H4]]]]].
  exists w2. split.
  - apply bind_Raised.
    erewrite bind_Ok by (apply config_setitem_Ok; exact Hset).
    apply bind_Raised. rewrite bind_get_world.
    cbn [with_config config].
    erewrite bind_Ok by exact L.
    rewrite bind_get_world. apply bind_Raised.
    unfold write_file. rewrite bind_get_world.
    rewrite H3. cbn [with_config cwd]. rewrite C.
    unfold completion_script in Hdenied. rewrite Hdenied. reflexivity.
  - rewrite H1, H2, H4. cbn [with_config config files trace].
    repeat split; try reflexivity; exact T.
Qed.

(** ** Export and import *)

Lemma config_read_keeps_files (names : list string) :
  keeps files (config_read env names).
Proof. unfold_program. keeps_auto. Qed.

Lemma config_read_keeps_cwd (names : list string) :
  keeps cwd (config_read env names).
Proof. unfold_program. keeps_auto. Qed.

(** The import branch opens files to read them and writes none. *)
Lemma import_keeps_files (source : option string) :
  keeps files
        match source with
        | Some source =>
            when (negb (source =? ""))
              (text <- read_file env source ;;
               config_read env (file_lines text))
        | None => ret tt
        end.
Proof. unfold_program. keeps_auto. Qed.

(** The export branch writes one file: the one its path names. *)
Lemma export_writes_elsewhere (export : bool) (file : string) (w : World) :
  (export = true ->
   realpath env (cwd w) (os_curdir ++ os_sep (platform env) ++ ".ahdconfig")
   <> file) ->
  files (fst (when export
                (print (os_curdir ++ os_sep (platform env) ++ ".ahdconfig") ;;
                 write_file env
                   (os_curdir ++ os_sep (platform env) ++ ".ahdconfig")
                   config_write) w)) file
  = files w file.
Proof.
  intros H. destruct export; [| reflexivity].
  specialize (H eq_refl). cbn [when]. unfold print.
  rewrite (bind_Ok _ _ _ _ _ (emit_run _ _)).
  unfold write_file. rewrite bind_get_world. cbn [add_events cwd].
  destruct (open_w_error env _); [reflexivity |].
  cbn [set_file fst files add_events].
  destruct (String.eqb_spec file
              (realpath env (cwd w)
                 (os_curdir ++ os_sep (platform env) ++ ".ahdconfig")))
    as [-> | _]; [contradiction H; reflexivity | reflexivity].
Qed.

Lemma config_command_leaves (export : bool) (source : option string)
      (file : string) (w : World) :
  (export = true ->
   realpath env (cwd w) (os_curdir ++ os_sep (platform env) ++ ".ahdconfig")
   <> file) ->
  files (fst (config_command env (ahd_config export source) w)) file
  = files w file.
Proof.
  intros H. unfold config_command. cbn [arg_export arg_import ahd_config].
  pose proof (export_writes_elsewhere export file w H) as E.
  unfold bind at 1.
  destruct (when export _ w) as [w' [[] | e |]] eqn:W; cbn [fst] in *;
    try exact E.
  rewrite <- E. apply (f_equal (fun fs => fs file)).
  apply import_keeps_files.
Qed.

(** What a run of [ahd config] does after loading. *)
Lemma main_config (export : bool) (source : option string) (w w1 : World) :
  load_store env w = (w1, Ok tt) ->
  main env (ahd_config export source) w
  = (config_command env (ahd_config export source) ;; os_chdir CURRENT_PATH) w1.
Proof.
  intros Hl. unfold main.
  cbn [arg_command arg_paths arg_register arg_name arg_docs arg_config
       sys_argv_len ahd_config Nat.eqb when String.eqb Ascii.eqb Bool.eqb].
  rewrite bind_ret, (bind_Ok _ _ _ _ _ Hl), bind_ret, bind_ret.
  unfold dispatch. cbn [truthy when]. rewrite bind_ret. reflexivity.
Qed.

Lemma main_stops_with_load (arguments : Arguments) (w w1 : World)
      (r : Result unit) :
  sys_argv_len arguments <> 1 ->
  load_store env w = (w1, r) -> r <> Ok tt ->
  fst (main env arguments w) = w1.
Proof.
  intros Hargc Hl Hr. unfold main.
  destruct (Nat.eqb_spec (sys_argv_len arguments) 1) as [E | _];
    [contradiction |].
  cbn [when]. rewrite bind_ret.
  destruct r as [[] | e |].
  - contradiction Hr; reflexivity.
  - rewrite (bind_Raised _ _ _ _ _ Hl). reflexivity.
  - rewrite (bind_Exited _ _ _ _ Hl). reflexivity.
Qed.

(** C9, as the code has it: the import writes no file.  After [ahd config
    --import <file>], with nothing registered in the run, the store file at
    the default place is as loading left it, and as it was before the run
    when it existed, provided that an export asked for in the same run
    writes another file than the store: [./.ahdconfig] is taken from the
    current directory, and from the package directory it is the store. *)
Theorem import_never_writes_store
        (export : bool) (source : string) (w : World) :
  let store := realpath env (cwd w) (CONFIG_FILE_PATH env) in
  let result := main env (ahd_config export (Some source)) w in
  (export = true ->
   realpath env (cwd w) (os_curdir ++ os_sep (platform env) ++ ".ahdconfig")
   <> store) ->
  files (fst result) store = files (fst (load_store env w)) store
  /\ (files w store <> None -> files (fst result) store = files w store).
Proof.
  intros store result Hexport.
  assert (A : files (fst result) store = files (fst (load_store env w)) store).
  { unfold result.
    destruct (load_store env w) as [w1 r] eqn:Hl.
    assert (C : cwd w1 = cwd w).
    { pose proof (load_store_keeps_cwd w) as K. rewrite Hl in K. exact K. }
    destruct r as [[] | e |].
    - rewrite (main_config _ _ _ _ Hl). cbn [fst].
      assert (K : forall a : unit, keeps files (os_chdir CURRENT_PATH)).
      { intros _. keeps_auto. }
      rewrite (keeps_bind_tail files _ _ w1 K).
      apply config_command_leaves. rewrite C. exact Hexport.
    - erewrite main_stops_with_load;
        [reflexivity | simpl; discriminate | exact Hl | discriminate].
    - erewrite main_stops_with_load;
        [reflexivity | simpl; discriminate | exact Hl | discriminate]. }
  split; [exact A |].
  intros Hexists. rewrite A. rewrite load_store_reads by exact Hexists.
  reflexivity.
Qed.

(** ** Python strings: characters kept out *)

Lemma contains_app (c : ascii) (a b : string) :
  Py.contains c (a ++ b) = Py.contains c a || Py.contains c b.
Proof.
  induction a as [| x a IH]; simpl; [reflexivity |].
  rewrite IH. apply orb_assoc.
Qed.

Lemma contains_replace (c old : ascii) (new s : string) :
  Py.contains c s = false -> Py.contains c new = false ->
  Py.contains c (Py.replace old new s) = false.
Proof.
  intros Hs Hn. induction s as [| x s IH]; simpl in *; [reflexivity |].
  apply orb_false_iff in Hs. destruct Hs as [Hx Hs].
  destruct (Ascii.eqb x old).
  - rewrite contains_app, Hn. apply IH. exact Hs.
  - simpl. rewrite Hx. apply IH. exact Hs.
Qed.

Lemma contains_lstrip (c : ascii) (s : string) :
  Py.contains c s = false -> Py.contains c (Py.lstrip s) = false.
Proof.
  induction s as [| x s IH]; simpl; [reflexivity |]. intros H.
  destruct (Py.isspace x); [| exact H].
  apply orb_false_iff in H. apply IH, H.
Qed.

Lemma contains_rstrip (c : ascii) (s : string) :
  Py.contains c s = false -> Py.contains c (Py.rstrip s) = false.
Proof.
  induction s as [| x s IH]; simpl; [reflexivity |]. intros H.
  apply orb_false_iff in H. destruct H as [Hx Hs]. specialize (IH Hs).
  destruct (Py.rstrip s) as [| y t].
  - destruct (Py.isspace x); simpl; [reflexivity | rewrite Hx; reflexivity].
  - simpl in *. rewrite Hx. exact IH.
Qed.

Lemma contains_strip (c : ascii) (s : string) :
  Py.contains c s = false -> Py.contains c (Py.strip s) = false.
Proof. intros H. apply contains_rstrip, contains_lstrip, H. Qed.

(** The pieces of a split hold no separator; a character the text does not
    hold is in none of them. *)
Lemma split_pieces (c : ascii) (sep : ascii) (s : string) :
  (Ascii.eqb c sep = true \/ Py.contains c s = false) ->
  Forall (fun x => Py.contains c x = false) (Py.split sep s).
Proof.
  induction s as [| x s IH]; intros H.
  - repeat constructor.
  - cbn [Py.split].
    assert (H' : Ascii.eqb c sep = true \/ Py.contains c s = false).
    { destruct H as [H | H]; [left; exact H | right].
      simpl in H. apply orb_false_iff in H. apply H. }
    specialize (IH H').
    destruct (Ascii.eqb x sep) eqn:E.
    + constructor; [reflexivity | exact IH].
    + destruct (Py.split sep s) as [| h t]; [repeat constructor |].
      * simpl. rewrite orb_false_r.
        destruct H as [H | H].
        -- apply Ascii.eqb_eq in H. subst c. exact E.
        -- simpl in H. apply orb_false_iff in H. apply H.
      * inversion IH as [| ? ? Hh Ht]; subst. constructor; [| exact Ht].
        simpl. rewrite Hh, orb_false_r.
        destruct H as [H | H].
        -- apply Ascii.eqb_eq in H. subst c. exact E.
        -- simpl in H. apply orb_false_iff in H. apply H.
Qed.

Lemma split_without_separator (sep : ascii) (s : string) :
  Py.contains sep s = false -> Py.split sep s = [s].
Proof.
  induction s as [| x s IH]; [reflexivity |]. simpl. intros H.
  apply orb_false_iff in H. destruct H as [Hx Hs].
  rewrite Hx, (IH Hs). reflexivity.
Qed.

Lemma split_app (sep : ascii) (a b : string) :
  Py.contains sep a = false ->
  Py.split sep (a ++ String sep b) = a :: Py.split sep b.
Proof.
  induction a as [| x a IH]; simpl; intros H.
  - rewrite Ascii.eqb_refl. reflexivity.
  - apply orb_false_iff in H. destruct H as [Hx Ha].
    rewrite Hx, (IH Ha). reflexivity.
Qed.

Lemma contains_replaced (old : ascii) (new s : string) :
  Py.contains old new = false ->
  Py.contains old (Py.replace old new s) = false.
Proof.
  intros Hn. induction s as [| x s IH]; simpl; [reflexivity |].
  destruct (Ascii.eqb x old) eqn:E.
  - rewrite contains_app, Hn. exact IH.
  - simpl. rewrite E. exact IH.
Qed.

(** [_preprocess_paths] keeps out of every path the comma, the backslash,
    and any character but the slash that the input does not hold. *)
Lemma preprocess_paths_without (c : ascii) (paths : string) :
  Py.contains c "/" = false ->
  (Ascii.eqb c "," = true \/ Py.contains c paths = false) ->
  Forall (fun q => Py.contains c q = false) (_preprocess_paths paths).
Proof.
  intros Hc H. unfold _preprocess_paths. apply Forall_map.
  eapply Forall_impl; [| exact (split_pieces c "," paths H)].
  intros x Hx. cbv beta in *.
  apply contains_strip, contains_replace; assumption.
Qed.

Lemma preprocess_paths_without_backslash (paths : string) :
  Forall (fun q => Py.contains "\" q = false) (_preprocess_paths paths).
Proof.
  unfold _preprocess_paths. apply Forall_map, Forall_forall. intros x _.
  apply contains_strip, contains_replaced. reflexivity.
Qed.

(** ** [repr] and the characters it adds *)

Lemma hex_digit_in (n : nat) :
  Py.contains (Py.hex_digit n) "0123456789abcdef" = true.
Proof.
  do 16 (destruct n as [| n]; [reflexivity |]). destruct n; reflexivity.
Qed.

Lemma contains_other (c d : ascii) (s : string) :
  Py.contains c s = false -> Py.contains d s = true -> Ascii.eqb d c = false.
Proof.
  intros Hc Hd. destruct (Ascii.eqb_spec d c) as [-> | _]; [| reflexivity].
  rewrite Hc in Hd. discriminate.
Qed.

Lemma repr_char_without (c0 quote c : ascii) :
  Py.contains c0 repr_alphabet = false ->
  Ascii.eqb c c0 = false ->
  Py.contains c0 (Py.repr_char quote c) = false.
Proof.
  intros Ha Hc. unfold Py.repr_char.
  assert (Hh : forall n, Ascii.eqb (Py.hex_digit n) c0 = false).
  { intros n. apply contains_other with (s := repr_alphabet); [exact Ha |].
    pose proof (hex_digit_in n) as H. unfold repr_alphabet.
    change "'\tnrx0123456789abcdef" with ("'\tnrx" ++ "0123456789abcdef").
    rewrite contains_app, H. apply orb_true_r. }
  unfold repr_alphabet in Ha. simpl in Ha.
  repeat (apply orb_false_iff in Ha; destruct Ha as [? Ha]).
  destruct (Ascii.eqb c quote || Ascii.eqb c "\").
  { simpl. rewrite Hc. rewrite orb_false_r. assumption. }
  destruct (Py.ord c =? 9)%nat.
  { simpl. repeat (apply orb_false_iff; split); assumption. }
  destruct (Py.ord c =? 10)%nat.
  { simpl. repeat (apply orb_false_iff; split); assumption. }
  destruct (Py.ord c =? 13)%nat.
  { simpl. repeat (apply orb_false_iff; split); assumption. }
  destruct (Py.isprintable c).
  { simpl. rewrite Hc. reflexivity. }
  simpl. rewrite !Hh. repeat (apply orb_false_iff; split); assumption.
Qed.

Lemma repr_body_without (c0 quote : ascii) (s : string) :
  Py.contains c0 repr_alphabet = false ->
  Py.contains c0 s = false ->
  Py.contains c0 (Py.repr_body quote s) = false.
Proof.
  intros Ha. induction s as [| c s IH]; simpl; [reflexivity |]. intros H.
  apply orb_false_iff in H. destruct H as [Hc Hs].
  rewrite contains_app, (repr_char_without c0 quote c Ha Hc). apply IH, Hs.
Qed.

Lemma repr_quote_cases (s : string) :
  Py.repr_quote s = "'"%char \/ Py.repr_quote s = Py.dquote.
Proof.
  unfold Py.repr_quote.
  destruct (Py.contains "'" s && negb (Py.contains Py.dquote s)); auto.
Qed.

Lemma repr_without (c0 : ascii) (s : string) :
  Py.contains c0 repr_alphabet = false ->
  Ascii.eqb Py.dquote c0 = false ->
  Py.contains c0 s = false ->
  Py.contains c0 (Py.repr s) = false.
Proof.
  intros Ha Hd Hs. unfold Py.repr.
  assert (Hq : Ascii.eqb (Py.repr_quote s) c0 = false).
  { destruct (repr_quote_cases s) as [-> | ->]; [| exact Hd].
    unfold repr_alphabet in Ha. simpl in Ha.
    apply orb_false_iff in Ha. apply Ha. }
  cbn [Py.contains]. rewrite Hq, contains_app.
  rewrite (repr_body_without _ _ _ Ha Hs). simpl. rewrite Hq. reflexivity.
Qed.

Lemma join_without (c0 : ascii) (sep : string) (l : list string) :
  Py.contains c0 sep = false ->
  Forall (fun x => Py.contains c0 x = false) l ->
  Py.contains c0 (Py.join sep l) = false.
Proof.
  intros Hsep H. induction H as [| x l Hx Hl IH]; [reflexivity |].
  destruct l as [| y l]; [exact Hx |].
  change (Py.join sep (x :: y :: l)) with (x ++ sep ++ Py.join sep (y :: l)).
  rewrite !contains_app, Hx, Hsep. exact IH.
Qed.

(** The text stored for a list of paths holds a character only if a path
    or [repr] brings it. *)
Lemma str_of_list_without (c0 : ascii) (l : list string) :
  Py.contains c0 "[, ]" = false ->
  Py.contains c0 repr_alphabet = false ->
  Ascii.eqb Py.dquote c0 = false ->
  Forall (fun x => Py.contains c0 x = false) l ->
  Py.contains c0 (Py.str_of_list l) = false.
Proof.
  intros Hb Ha Hd H. unfold Py.str_of_list.
  simpl in Hb. repeat (apply orb_false_iff in Hb; destruct Hb as [? Hb]).
  cbn [append Py.contains]. rewrite contains_app.
  apply orb_false_iff. split; [assumption |].
  apply orb_false_iff. split.
  - apply join_without.
    + simpl. repeat (apply orb_false_iff; split); assumption.
    + apply Forall_map. eapply Forall_impl; [| exact H].
      intros x Hx. apply repr_without; assumption.
  - simpl. rewrite orb_false_r. assumption.
Qed.

(** ** Interpolation of a value without a percent sign *)

Lemma remove_double_percent_without (c0 : ascii) (skip : bool) (s : string) :
  Py.contains c0 s = false ->
  Py.contains c0 (Py.remove_double_percent_from skip s) = false.
Proof.
  revert skip. induction s as [| c s IH]; intros skip H; [reflexivity |].
  simpl in H. apply orb_false_iff in H. destruct H as [Hc Hs].
  cbn [Py.remove_double_percent_from]. destruct skip; [apply IH, Hs |].
  destruct (Ascii.eqb c "%" && Py.startswith "%" s); [apply IH, Hs |].
  simpl. rewrite Hc. apply IH, Hs.
Qed.

Lemma keycre_remove_without (c0 : ascii) (skip : nat) (s : string) :
  Py.contains c0 s = false ->
  Py.contains c0 (ConfigParser.keycre_remove skip s) = false.
Proof.
  revert skip. induction s as [| c s IH]; intros skip H; [reflexivity |].
  pose proof H as H0.
  simpl in H. apply orb_false_iff in H. destruct H as [Hc Hs].
  cbn [ConfigParser.keycre_remove]. destruct skip; [| apply IH, Hs].
  destruct (ConfigParser.keycre_match (String c s)) as [[var rest] |].
  - apply IH, Hs.
  - simpl. rewrite Hc. apply IH, Hs.
Qed.

Lemma before_set_plain (value : string) :
  Py.contains "%" value = false ->
  ConfigParser.before_set value = inr value.
Proof.
  intros H. unfold ConfigParser.before_set.
  rewrite keycre_remove_without; [reflexivity |].
  apply remove_double_percent_without, H.
Qed.

Lemma interpolate_scan_plain (deeper : string -> Exn + string)
      (lookup : string -> option string) (opt section rest : string) :
  forall fuel,
    String.length rest < fuel ->
    Py.contains "%" rest = false ->
    ConfigParser.interpolate_scan deeper lookup opt section fuel rest
    = inr rest.
Proof.
  induction rest as [| c r IH]; intros fuel Hf Hr.
  - destruct fuel; [inversion Hf | reflexivity].
  - destruct fuel as [| fuel]; [inversion Hf |].
    simpl in Hr. apply orb_false_iff in Hr. destruct Hr as [Hc Hr].
    simpl in Hf. cbn [ConfigParser.interpolate_scan]. rewrite Hc. cbn [negb].
    rewrite IH by (assumption || lia). reflexivity.
Qed.

Lemma interpolate_plain (depth : nat) (lookup : string -> option string)
      (opt section value : string) :
  Py.contains "%" value = false ->
  ConfigParser.interpolate_some (S depth) lookup opt section value = inr value.
Proof.
  intros H. cbn [ConfigParser.interpolate_some].
  apply interpolate_scan_plain; [lia | exact H].
Qed.

(** ** Writing into the registry and reading back *)

Lemma dict_get_set_same {V : Type} (d : ConfigParser.dict V) (k : string) (v : V) :
  ConfigParser.dict_get (ConfigParser.dict_set d k v) k = Some v.
Proof.
  induction d as [| [k' v'] d IH]; simpl.
  - rewrite String.eqb_refl. reflexivity.
  - destruct (k' =? k) eqn:E; simpl.
    + rewrite String.eqb_refl. reflexivity.
    + rewrite E. exact IH.
Qed.

Lemma dict_get_set_other {V : Type} (d : ConfigParser.dict V) (k k' : string)
      (v : V) :
  k <> k' ->
  ConfigParser.dict_get (ConfigParser.dict_set d k v) k'
  = ConfigParser.dict_get d k'.
Proof.
  intros N. induction d as [| [k0 v0] d IH]; simpl.
  - destruct (String.eqb_spec k k'); [contradiction | reflexivity].
  - destruct (String.eqb_spec k0 k) as [-> | Nk]; simpl.
    + destruct (String.eqb_spec k k'); [contradiction |].
      destruct (String.eqb_spec k k'); [contradiction | reflexivity].
    + destruct (k0 =? k'); [reflexivity | exact IH].
Qed.

Lemma before_set_inv (value value' : string) :
  ConfigParser.before_set value = inr value' -> value' = value.
Proof.
  unfold ConfigParser.before_set.
  destruct (Py.contains "%" _); intros H; inversion H. reflexivity.
Qed.

(** What a successful [set] leaves: the value under the option, in the
    mapping of the section. *)
Lemma set_inv (cfg cfg' : ConfigParser.t) (section opt value : string) :
  ConfigParser.set cfg section opt value = inr cfg' ->
  cfg' =
  if (section =? "") || (section =? ConfigParser.default_section)
  then {| ConfigParser._defaults :=
            ConfigParser.dict_set (ConfigParser._defaults cfg)
                                  (ConfigParser.optionxform opt) value;
          ConfigParser._sections := ConfigParser._sections cfg |}
  else {| ConfigParser._defaults := ConfigParser._defaults cfg;
          ConfigParser._sections :=
            ConfigParser.dict_set (ConfigParser._sections cfg) section
              (ConfigParser.dict_set (ConfigParser.section_dict cfg section)
                                     (ConfigParser.optionxform opt) value) |}.
Proof.
  unfold ConfigParser.set. intros H.
  destruct (value =? "") eqn:Ev.
  - destruct ((section =? "") || (section =? ConfigParser.default_section));
      inversion H; reflexivity.
  - destruct (ConfigParser.before_set value) as [e | v'] eqn:B;
      [discriminate |].
    apply before_set_inv in B. subst v'.
    destruct ((section =? "") || (section =? ConfigParser.default_section));
      inversion H; reflexivity.
Qed.

Lemma set_items_inv (cfg cfg' : ConfigParser.t) (section : string)
      (k1 v1 k2 v2 : string) :
  ConfigParser.set_items cfg section [(k1, v1); (k2, v2)] = (cfg', None) ->
  exists cfg1,
    ConfigParser.set cfg section (ConfigParser.optionxform k1) v1 = inr cfg1
    /\ ConfigParser.set cfg1 section (ConfigParser.optionxform k2) v2
       = inr cfg'.
Proof.
  cbn [ConfigParser.set_items].
  destruct (ConfigParser.set cfg section _ v1) as [e | cfg1]; [discriminate |].
  destruct (ConfigParser.set cfg1 section _ v2) as [e | cfg2] eqn:E2;
    [discriminate |].
  intros H. inversion H. subst. exists cfg1. split; [reflexivity | exact E2].
Qed.

(** The parser [setitem] hands to [read_dict]'s loop: the section exists
    and is empty, unless the key is [DEFAULT]. *)
Lemma setitem_prepares (cfg : ConfigParser.t) (name : string) :
  name <> ConfigParser.default_section ->
  let cleared :=
    if name =? ConfigParser.default_section
    then {| ConfigParser._defaults := [];
            ConfigParser._sections := ConfigParser._sections cfg |}
    else if ConfigParser.has_section cfg name
    then {| ConfigParser._defaults := ConfigParser._defaults cfg;
            ConfigParser._sections :=
              ConfigParser.dict_set (ConfigParser._sections cfg) name [] |}
    else cfg in
  ConfigParser.dict_get
    (ConfigParser._sections (ConfigParser.add_section_quietly cleared name))
    name = Some [].
Proof.
  intros N cleared. subst cleared.
  destruct (String.eqb_spec name ConfigParser.default_section) as [E | _];
    [contradiction |].
  unfold ConfigParser.add_section_quietly.
  destruct (String.eqb_spec name ConfigParser.default_section) as [E | _];
    [contradiction |].
  cbn [orb].
  destruct (ConfigParser.has_section cfg name) eqn:Hs.
  - unfold ConfigParser.has_section, ConfigParser.dict_mem.
    cbn [ConfigParser._sections]. rewrite dict_get_set_same.
    cbn [ConfigParser._sections]. apply dict_get_set_same.
  - rewrite Hs. cbn [ConfigParser._sections]. apply dict_get_set_same.
Qed.

(** The parser after [config[name] = {"command": c, "paths": v}] went
    through. *)
Lemma setitem_result (cfg cfg' : ConfigParser.t) (name c v : string) :
  ConfigParser.setitem cfg (Some name) [("command", c); ("paths", v)]
  = (cfg', None) ->
  if name =? ConfigParser.default_section
  then cfg' = {| ConfigParser._defaults := [("command", c); ("paths", v)];
                 ConfigParser._sections := ConfigParser._sections cfg |}
  else exists d0 s0,
      ConfigParser.dict_get s0 name = Some []
      /\ cfg' =
         if name =? ""
         then {| ConfigParser._defaults :=
                   ConfigParser.dict_set
                     (ConfigParser.dict_set d0 "command" c) "paths" v;
                 ConfigParser._sections := s0 |}
         else {| ConfigParser._defaults := d0;
                 ConfigParser._sections :=
                   ConfigParser.dict_set
                     (ConfigParser.dict_set s0 name [("command", c)])
                     name [("command", c); ("paths", v)] |}.
Proof.
  unfold ConfigParser.setitem, ConfigParser.read_dict.
  cbn [ConfigParser.str_of_key]. intros H.
  apply set_items_inv in H. destruct H as [cfg1 [S1 S2]].
  apply set_inv in S1. apply set_inv in S2.
  change (ConfigParser.optionxform (ConfigParser.optionxform "command"))
    with "command" in S1.
  change (ConfigParser.optionxform (ConfigParser.optionxform "paths"))
    with "paths" in S2.
  destruct (String.eqb_spec name ConfigParser.default_section) as [E | N].
  - subst name. rewrite orb_true_r in S1, S2.
    unfold ConfigParser.add_section_quietly in S1.
    rewrite String.eqb_refl in S1. cbn [orb] in S1.
    subst cfg1. cbn in S2. exact S2.
  - pose proof (setitem_prepares cfg name N) as P. cbv zeta in P.
    destruct (String.eqb_spec name ConfigParser.default_section) as [E | _];
      [contradiction |].
    rewrite orb_false_r in S1, S2.
    match type of P with
    | ConfigParser.dict_get (ConfigParser._sections ?c0) _ = _ =>
        set (cfg0 := c0) in *
    end.
    exists (ConfigParser._defaults cfg0), (ConfigParser._sections cfg0).
    split; [exact P |].
    destruct (name =? "") eqn:En.
    + subst cfg1. cbn in S2. exact S2.
    + assert (D0 : ConfigParser.section_dict cfg0 name = []).
      { unfold ConfigParser.section_dict. rewrite P. reflexivity. }
      rewrite D0 in S1. cbn [ConfigParser.dict_set] in S1.
      assert (D1 : ConfigParser.section_dict cfg1 name = [("command", c)]).
      { subst cfg1. unfold ConfigParser.section_dict.
        cbn [ConfigParser._sections]. rewrite dict_get_set_same. reflexivity. }
      rewrite D1 in S2. rewrite S2, S1. cbn. reflexivity.
Qed.

(** After a registration went through, the value is in the mapping of the
    name, whatever the name. *)
Lemma setitem_stores (cfg cfg' : ConfigParser.t) (name c v : string) :
  ConfigParser.setitem cfg (Some name) [("command", c); ("paths", v)]
  = (cfg', None) ->
  ConfigParser.dict_get (sectdict cfg' name) "paths" = Some v
  /\ ConfigParser.dict_get (sectdict cfg' name) "command" = Some c.
Proof.
  intros H. apply setitem_result in H. unfold sectdict.
  destruct (String.eqb_spec name ConfigParser.default_section) as [E | N].
  - subst. rewrite orb_true_r. split; reflexivity.
  - destruct H as [d0 [s0 [P H]]]. rewrite orb_false_r.
    destruct (name =? "") eqn:En; subst cfg'; cbn [ConfigParser._defaults].
    + split; [apply dict_get_set_same |].
      rewrite dict_get_set_other by discriminate. apply dict_get_set_same.
    + unfold ConfigParser.section_dict. cbn [ConfigParser._sections].
      rewrite dict_get_set_same. split; reflexivity.
Qed.

Lemma before_get_plain (cfg : ConfigParser.t) (section opt value : string) :
  Py.contains "%" value = false ->
  ConfigParser.before_get cfg section opt value = inr value.
Proof. intros H. apply interpolate_plain, H. Qed.

Lemma entry_paths (c v : string) :
  ConfigParser.dict_get [("command", c); ("paths", v)] "paths" = Some v.
Proof. reflexivity. Qed.

Lemma entry_command (c v : string) :
  ConfigParser.dict_get [("command", c); ("paths", v)] "command" = Some c.
Proof. reflexivity. Qed.

(** And the program reads it back as it was stored when it holds no
    percent sign. *)
Lemma setitem_getitem (cfg cfg' : ConfigParser.t) (name c v : string) :
  ConfigParser.setitem cfg (Some name) [("command", c); ("paths", v)]
  = (cfg', None) ->
  name <> ConfigParser.default_section ->
  (Py.contains "%" v = false ->
   ConfigParser.getitem cfg' (Some name) "paths" = inr v)
  /\ (Py.contains "%" c = false ->
      ConfigParser.getitem cfg' (Some name) "command" = inr c).
Proof.
  intros H N. apply setitem_result in H.
  destruct (String.eqb_spec name ConfigParser.default_section) as [E | _];
    [contradiction |].
  destruct H as [d0 [s0 [P H]]].
  assert (P' : @ConfigParser.dict_get (ConfigParser.dict string) s0 name
               = Some []) by exact P.
  unfold ConfigParser.getitem.
  destruct (String.eqb_spec name ConfigParser.default_section) as [E | _];
    [contradiction |].
  cbn [negb andb].
  unfold ConfigParser.has_option, ConfigParser.get_raw,
    ConfigParser.chain_get, ConfigParser.has_section, ConfigParser.dict_mem.
  change (ConfigParser.optionxform "paths") with "paths".
  change (ConfigParser.optionxform "command") with "command".
  destruct (String.eqb_spec name ConfigParser.default_section) as [E | _];
    [contradiction |].
  rewrite orb_false_r.
  destruct (name =? "") eqn:En; subst cfg';
    unfold ConfigParser.section_dict;
    cbn [ConfigParser._defaults ConfigParser._sections].
  - rewrite P'. cbv beta iota. cbn [negb ConfigParser.dict_get].
    rewrite dict_get_set_same.
    rewrite dict_get_set_other by discriminate. rewrite dict_get_set_same.
    cbn [negb]. split; intros Hv; apply before_get_plain; exact Hv.
  - rewrite dict_get_set_same. cbv beta iota.
    rewrite entry_paths, entry_command. cbn [negb orb].
    split; intros Hv; apply before_get_plain; exact Hv.
Qed.

(** ** A registration that goes through *)

Lemma config_setitem_inv (name : option string) (items : list (string * string))
      (w w' : World) :
  config_setitem name items w = (w', Ok tt) ->
  ConfigParser.setitem (config w) name items = (config w', None)
  /\ w' = with_config w (config w').
Proof.
  unfold config_setitem. rewrite bind_get_world.
  destruct (ConfigParser.setitem (config w) name items) as [c [e |]].
  - intros H. apply bind_Ok_inv in H. destruct H as [w1 [a [_ H]]].
    discriminate.
  - rewrite set_config_run. intros H. inversion H. subst w'.
    split; reflexivity.
Qed.

Lemma write_file_inv (path : string) (text : World -> string) (w w' : World) :
  write_file env path text w = (w', Ok tt) ->
  files w' (realpath env (cwd w) path) = Some (text w)
  /\ config w' = config w /\ cwd w' = cwd w /\ trace w' = trace w.
Proof.
  unfold write_file. rewrite bind_get_world.
  destruct (open_w_error env _); [discriminate |].
  intros H. inversion H. subst w'. cbn [files config cwd trace].
  rewrite String.eqb_refl. repeat split; reflexivity.
Qed.

(** The completion step of a registration leaves the registry and the
    working directory alone. *)
Lemma completion_keeps_config :
  keeps config
    (when (negb (os_name (platform env) =? "nt")) (regenerate_completion env)).
Proof. unfold regenerate_completion, write_file, print. cbv zeta. keeps_auto. Qed.

Lemma completion_keeps_cwd :
  keeps cwd
    (when (negb (os_name (platform env) =? "nt")) (regenerate_completion env)).
Proof. unfold regenerate_completion, write_file, print. cbv zeta. keeps_auto. Qed.

Lemma register_inv (name : option string) (cmd : string) (paths : PathsValue)
      (w w' : World) :
  register env name cmd paths w = (w', Ok tt) ->
  ConfigParser.setitem (config w) name
    [("command", cmd); ("paths", str_of_paths paths)] = (config w', None)
  /\ files w' (realpath env (cwd w) (CONFIG_FILE_PATH env))
     = Some (ConfigParser.write (config w'))
  /\ cwd w' = cwd w.
Proof.
  unfold register. intros H.
  apply bind_Ok_inv in H. destruct H as [wa [[] [Hs H]]].
  apply bind_Ok_inv in H. destruct H as [wb [[] [Hm H]]].
  apply config_setitem_inv in Hs. destruct Hs as [Hs Ea].
  pose proof (completion_keeps_config wa) as Kc. rewrite Hm in Kc.
  pose proof (completion_keeps_cwd wa) as Kd. rewrite Hm in Kd.
  cbn [fst] in Kc, Kd.
  apply write_file_inv in H. destruct H as [Hf [Hc [Hd _]]].
  assert (Cw : cwd wa = cwd w) by (rewrite Ea; reflexivity).
  rewrite Hc, Kc. split; [exact Hs |]. split.
  - rewrite <- Cw, <- Kd, Hf. unfold config_write. rewrite Kc. reflexivity.
  - rewrite Hd, Kd. exact Cw.
Qed.

(** A registration that returns has loaded the store, resolved the
    command, written the entry into the registry and the registry into the
    store. *)
Lemma main_register_inv (name : string) (cmd paths : option string)
      (w w2 : World) :
  main env (ahd_register name cmd paths) w = (w2, Ok tt) ->
  exists w1 c,
    load_store env w = (w1, Ok tt)
    /\ (if "." =? command_argument cmd
        then ConfigParser.getitem (config w1) (Some name) "command" = inr c
        else c = command_argument cmd)
    /\ ConfigParser.setitem (config w1) (Some name)
         [("command", c); ("paths", paths_argument paths)] = (config w2, None)
    /\ files w2 (realpath env (cwd w) (CONFIG_FILE_PATH env))
       = Some (ConfigParser.write (config w2)).
Proof.
  unfold main.
  cbn [arg_command arg_paths arg_register arg_name arg_docs arg_config
       sys_argv_len ahd_register Nat.eqb when].
  rewrite bind_ret. intros H.
  apply bind_Ok_inv in H. destruct H as [w1 [[] [Hl H]]].
  rewrite bind_ret in H.
  apply bind_Ok_inv in H. destruct H as [wa [c [Hc H]]].
  apply bind_Ok_inv in H. destruct H as [wb [[] [Hr H]]].
  rewrite bind_ret, os_chdir_curdir in H. inversion H. subst w2. clear H.
  assert (C1 : cwd w1 = cwd w).
  { pose proof (load_store_keeps_cwd w) as K. rewrite Hl in K. exact K. }
  assert (Ea : wa = w1 /\
               if "." =? command_argument cmd
               then ConfigParser.getitem (config w1) (Some name) "command" = inr c
               else c = command_argument cmd).
  { unfold command_argument.
    destruct ("." =? match cmd with Some c0 => c0 | None => "" end).
    - unfold config_getitem in Hc. rewrite bind_get_world in Hc.
      destruct (ConfigParser.getitem (config w1) (Some name) "command");
        inversion Hc. split; reflexivity.
    - inversion Hc. split; reflexivity. }
  destruct Ea as [-> Ec].
  apply register_inv in Hr. destruct Hr as [Hs [Hf Hd]].
  exists w1, c. split; [exact Hl |]. split; [exact Ec |].
  cbn [add_events config files]. split.
  - exact Hs.
  - rewrite <- C1. exact Hf.
Qed.

(** ** Python strings: brackets, joins and strips *)

Lemma drop_last_app (a : string) (c : ascii) :
  Py.drop_last (a ++ String c "") = a.
Proof.
  induction a as [| x a IH]; [reflexivity |].
  destruct a as [| y a]; [reflexivity |].
  cbn [append] in *. cbn [Py.drop_last] in *. rewrite IH. reflexivity.
Qed.

Lemma endswith_app (a : string) (c : ascii) :
  Py.endswith c (a ++ String c "") = true.
Proof.
  induction a as [| x a IH]; [apply Ascii.eqb_refl |].
  destruct a as [| y a]; [apply Ascii.eqb_refl |].
  cbn [append] in *. cbn [Py.endswith] in *. exact IH.
Qed.

Lemma rstrip_app_nonspace (a : string) (c : ascii) :
  Py.isspace c = false ->
  Py.rstrip (a ++ String c "") = a ++ String c "".
Proof.
  intros H. induction a as [| x a IH].
  - simpl. rewrite H. reflexivity.
  - cbn [append Py.rstrip]. rewrite IH.
    destruct a; reflexivity.
Qed.

(** A text between two quotes is what [strip] returns for it, also after a
    blank. *)
Lemma strip_quoted (q : ascii) (body : string) :
  Py.isspace q = false ->
  Py.strip (String q (body ++ String q "")) = String q (body ++ String q "")
  /\ Py.strip (String " " (String q (body ++ String q "")))
     = String q (body ++ String q "").
Proof.
  intros H. unfold Py.strip.
  assert (L : Py.lstrip (String q (body ++ String q ""))
              = String q (body ++ String q "")).
  { simpl. rewrite H. reflexivity. }
  assert (R : Py.rstrip (String q (body ++ String q ""))
              = String q (body ++ String q "")).
  { change (String q (body ++ String q ""))
      with ((String q body) ++ String q "").
    apply rstrip_app_nonspace, H. }
  split.
  - rewrite L. exact R.
  - change (Py.lstrip (String " " (String q (body ++ String q ""))))
      with (Py.lstrip (String q (body ++ String q ""))).
    rewrite L. exact R.
Qed.

(** Splitting at the commas a text joined with a comma and a blank gives
    the items back, each but the first after a blank. *)
Lemma split_join (l : list string) :
  Forall (fun x => Py.contains "," x = false) l ->
  Py.split "," (Py.join ", " l)
  = match l with
    | [] => [""]
    | x :: r => x :: map (fun y => String " " y) r
    end.
Proof.
  intros H. induction H as [| x l Hx Hl IH]; [reflexivity |].
  destruct l as [| y l].
  - simpl. apply split_without_separator, Hx.
  - change (Py.join ", " (x :: y :: l))
      with (x ++ String "," (String " " (Py.join ", " (y :: l)))).
    rewrite split_app by exact Hx. f_equal.
    inversion Hl as [| ? ? Hy Hl']; subst.
    cbn [Py.split]. change (Ascii.eqb " " ",") with false. cbv iota.
    rewrite IH. reflexivity.
Qed.

Lemma replace_join (old : ascii) (new sep : string) (l : list string) :
  Py.replace old new sep = sep ->
  Py.replace old new (Py.join sep l)
  = Py.join sep (map (Py.replace old new) l).
Proof.
  intros Hs. induction l as [| x l IH]; [reflexivity |].
  destruct l as [| y l]; [reflexivity |].
  change (Py.join sep (x :: y :: l)) with (x ++ sep ++ Py.join sep (y :: l)).
  rewrite !replace_app, Hs, IH. reflexivity.
Qed.

(** ** The stored list, as the dispatcher takes it apart *)

Lemma native_app (p : Platform) (a b : string) :
  native p (a ++ b) = native p a ++ native p b.
Proof. unfold native. destruct (os_name p =? "nt"); [apply replace_app | reflexivity]. Qed.

Lemma native_join (p : Platform) (l : list string) :
  native p (Py.join ", " l) = Py.join ", " (map (native p) l).
Proof.
  unfold native. destruct (os_name p =? "nt").
  - apply replace_join. reflexivity.
  - rewrite map_id. reflexivity.
Qed.

Lemma native_without (c : ascii) (p : Platform) (s : string) :
  Py.contains c "\" = false -> Py.contains c s = false ->
  Py.contains c (native p s) = false.
Proof.
  intros Hb Hs. destruct p; [exact Hs |].
  apply contains_replace; assumption.
Qed.

(** [repr] made native is still a text between two quotes. *)
Lemma native_repr (p : Platform) (q : string) :
  native p (Py.repr q)
  = String (Py.repr_quote q)
           (native p (Py.repr_body (Py.repr_quote q) q)
            ++ String (Py.repr_quote q) "").
Proof.
  unfold Py.repr. cbv zeta.
  change (String (Py.repr_quote q)
            (Py.repr_body (Py.repr_quote q) q ++ String (Py.repr_quote q) ""))
    with (String (Py.repr_quote q) ""
          ++ (Py.repr_body (Py.repr_quote q) q ++ String (Py.repr_quote q) "")).
  rewrite !native_app.
  assert (Q : native p (String (Py.repr_quote q) "")
              = String (Py.repr_quote q) "").
  { unfold native. destruct (os_name p =? "nt"); [| reflexivity].
    destruct (repr_quote_cases q) as [-> | ->]; reflexivity. }
  rewrite Q. reflexivity.
Qed.

Lemma repr_quote_not_space (q : string) : Py.isspace (Py.repr_quote q) = false.
Proof. destruct (repr_quote_cases q) as [-> | ->]; reflexivity. Qed.

Lemma bracket_body_stored (p : Platform) (l : list string) :
  bracket_body p (Py.str_of_list l)
  = Py.join ", " (map (fun q => native p (Py.repr q)) l).
Proof.
  unfold bracket_body. fold (native p (Py.str_of_list l)).
  unfold Py.str_of_list.
  change ("[" ++ Py.join ", " (map Py.repr l) ++ "]")
    with ("[" ++ (Py.join ", " (map Py.repr l) ++ "]")).
  rewrite !native_app, native_join, map_map.
  assert (B1 : native p "[" = "[").
  { unfold native. destruct (os_name p =? "nt"); reflexivity. }
  assert (B2 : native p "]" = "]").
  { unfold native. destruct (os_name p =? "nt"); reflexivity. }
  rewrite B1, B2. cbn [append Py.slice_1_m1]. apply drop_last_app.
Qed.

(** The entries of the stored list, stripped: one per path, its [repr]
    made native. *)
Lemma resolved_paths_stored (p : Platform) (l : list string) :
  l <> [] ->
  Forall (fun q => Py.contains "," q = false) l ->
  map Py.strip (resolved_paths p (Py.str_of_list l))
  = map (fun q => native p (Py.repr q)) l.
Proof.
  intros Hne Hl. unfold resolved_paths. rewrite bracket_body_stored.
  rewrite split_join.
  - destruct l as [| x l]; [contradiction Hne; reflexivity |].
    cbn [map]. f_equal.
    + rewrite native_repr.
      apply (strip_quoted _ _ (repr_quote_not_space x)).
    + rewrite !map_map. apply map_ext. intros y.
      rewrite native_repr.
      apply (strip_quoted _ _ (repr_quote_not_space y)).
  - apply Forall_map. eapply Forall_impl; [| exact Hl].
    intros q Hq. cbv beta in *.
    apply native_without; [reflexivity |].
    apply repr_without; [reflexivity | reflexivity | exact Hq].
Qed.

Lemma resolved_paths_stored_length (p : Platform) (l : list string) :
  l <> [] ->
  Forall (fun q => Py.contains "," q = false) l ->
  List.length (resolved_paths p (Py.str_of_list l)) = List.length l.
Proof.
  intros Hne Hl.
  rewrite <- (length_map Py.strip), resolved_paths_stored by assumption.
  apply length_map.
Qed.

(** ** The directory composed for a stored path *)

Lemma replace_absent (old : ascii) (new s : string) :
  Py.contains old s = false -> Py.replace old new s = s.
Proof.
  induction s as [| c s IH]; [reflexivity |]. simpl. intros H.
  apply orb_false_iff in H. destruct H as [Hc Hs].
  rewrite Hc, (IH Hs). reflexivity.
Qed.

Lemma directory_of_without_quote (p : Platform) (q : string) :
  Py.contains "'" (directory_of p q) = false.
Proof. unfold directory_of. apply contains_replaced. reflexivity. Qed.






(** ** No white space at the ends *)

Lemma first_char_app (a b : string) :
  first_char (a ++ b)
  = match first_char a with None => first_char b | found => found end.
Proof. destruct a; reflexivity. Qed.

Lemma last_char_app (a b : string) :
  last_char (a ++ b)
  = match last_char b with None => last_char a | found => found end.
Proof.
  induction a as [| c a IH]; simpl.
  - destruct (last_char b); reflexivity.
  - rewrite IH. destruct (last_char b); reflexivity.
Qed.

Lemma rstrip_ends (s : string) (c : ascii) :
  last_char s = Some c -> Py.isspace c = false -> Py.rstrip s = s.
Proof.
  revert c. induction s as [| x s IH]; intros c Hl Hc; [reflexivity |].
  simpl in *. destruct (last_char s) as [d |] eqn:L.
  - inversion Hl. subst d. rewrite (IH c eq_refl Hc).
    destruct s; [discriminate | reflexivity].
  - inversion Hl. subst x. destruct s as [| y s]; simpl in *.
    + rewrite Hc. reflexivity.
    + destruct (last_char s); discriminate.
Qed.

(** [strip] returns a trimmed text as it is. *)
Lemma strip_trimmed (s : string) : trimmed s = true -> Py.strip s = s.
Proof.
  unfold trimmed, Py.strip. intros H.
  apply andb_true_iff in H. destruct H as [Hf Hl].
  destruct s as [| c s]; [reflexivity |].
  simpl in Hf. apply negb_true_iff in Hf.
  assert (L : Py.lstrip (String c s) = String c s).
  { simpl. rewrite Hf. reflexivity. }
  rewrite L.
  destruct (last_char (String c s)) as [d |] eqn:E.
  - simpl in Hl. apply negb_true_iff in Hl. apply (rstrip_ends _ d E Hl).
  - simpl in E. destruct (last_char s); discriminate.
Qed.

Lemma lstrip_first (s : string) : not_space (first_char (Py.lstrip s)) = true.
Proof.
  induction s as [| c s IH]; [reflexivity |]. simpl.
  destruct (Py.isspace c) eqn:E; [exact IH |]. simpl. rewrite E. reflexivity.
Qed.

Lemma rstrip_last (s : string) : not_space (last_char (Py.rstrip s)) = true.
Proof.
  induction s as [| c s IH]; [reflexivity |]. simpl.
  destruct (Py.rstrip s) as [| d t] eqn:R.
  - destruct (Py.isspace c) eqn:E; [reflexivity |]. simpl. rewrite E. reflexivity.
  - change (last_char (String c (String d t)))
      with (match last_char (String d t) with
            | None => Some c
            | found => found
            end).
    destruct (last_char (String d t)) eqn:L.
    + exact IH.
    + simpl in L. destruct (last_char t); discriminate.
Qed.

Lemma rstrip_first (s : string) :
  not_space (first_char s) = true ->
  not_space (first_char (Py.rstrip s)) = true.
Proof.
  destruct s as [| c s]; [reflexivity |]. intros H. cbn [Py.rstrip].
  destruct (Py.rstrip s); [| exact H].
  destruct (Py.isspace c); [reflexivity | exact H].
Qed.

(** [strip] returns a trimmed text. *)
Lemma trimmed_strip (s : string) : trimmed (Py.strip s) = true.
Proof.
  unfold trimmed, Py.strip. apply andb_true_iff. split.
  - apply rstrip_first, lstrip_first.
  - apply rstrip_last.
Qed.

Lemma preprocess_paths_trimmed (paths : string) :
  Forall (fun q => trimmed q = true) (_preprocess_paths paths).
Proof.
  unfold _preprocess_paths. apply Forall_map, Forall_forall.
  intros x _. apply trimmed_strip.
Qed.

(** The escape of a character is never empty, and has no white space at its
    ends unless the character is white space. *)
Lemma escaped_ends (p : Platform) (c : ascii) :
  match escaped p c with
  | EmptyString => False
  | e => Py.isspace c = false ->
         not_space (first_char e) = true /\ not_space (last_char e) = true
  end.
Proof.
  destruct p; destruct c as [[] [] [] [] [] [] [] []]; vm_compute;
    intros; try discriminate; split; reflexivity.
Qed.

Lemma escaped_body (p : Platform) (c : ascii) (r : string) :
  Py.replace "'" "" (native p (Py.repr_body "'" (String c r)))
  = escaped p c ++ Py.replace "'" "" (native p (Py.repr_body "'" r)).
Proof.
  cbn [Py.repr_body]. rewrite native_app, replace_app. reflexivity.
Qed.

Lemma escaped_body_last (p : Platform) (q : string) :
  last_char (Py.replace "'" "" (native p (Py.repr_body "'" q)))
  = match last_char q with
    | None => None
    | Some c => last_char (escaped p c)
    end.
Proof.
  induction q as [| c r IH].
  - destruct p; reflexivity.
  - rewrite escaped_body, last_char_app, IH. cbn [last_char].
    destruct (last_char r) as [d |]; [| reflexivity].
    pose proof (escaped_ends p d) as E.
    destruct (escaped p d) as [| x e]; [contradiction |].
    cbn [last_char]. destruct (last_char e); reflexivity.
Qed.

Lemma last_char_snoc (a : string) (c : ascii) :
  last_char (a ++ String c "") = Some c.
Proof. rewrite last_char_app. reflexivity. Qed.

(** The directory composed for a trimmed path is trimmed. *)
Lemma directory_of_trimmed (p : Platform) (q : string) :
  trimmed q = true -> trimmed (directory_of p q) = true.
Proof.
  intros H. unfold directory_of. rewrite native_repr.
  destruct (repr_quote_cases q) as [Q | Q]; rewrite Q.
  - change (String "'" (native p (Py.repr_body "'" q) ++ "'"))
      with ("'" ++ (native p (Py.repr_body "'" q) ++ "'")).
    rewrite !replace_app. change (Py.replace "'" "" "'") with "".
    cbn [append]. rewrite append_empty_r.
    unfold trimmed in *. apply andb_true_iff in H. destruct H as [Hf Hl].
    apply andb_true_iff. split.
    + destruct q as [| c r]; [destruct p; reflexivity |].
      rewrite escaped_body, first_char_app.
      pose proof (escaped_ends p c) as E.
      destruct (escaped p c) as [| x e]; [contradiction |].
      simpl in Hf. apply negb_true_iff in Hf. apply (E Hf).
    + rewrite escaped_body_last.
      destruct (last_char q) as [d |]; [| reflexivity].
      pose proof (escaped_ends p d) as E.
      destruct (escaped p d) as [| x e]; [contradiction |].
      simpl in Hl. apply negb_true_iff in Hl. apply (E Hl).
  - change (String Py.dquote
              (native p (Py.repr_body Py.dquote q) ++ String Py.dquote ""))
      with (String Py.dquote ""
            ++ (native p (Py.repr_body Py.dquote q) ++ String Py.dquote "")).
    rewrite !replace_app.
    change (Py.replace "'" "" (String Py.dquote "")) with (String Py.dquote "").
    unfold trimmed. rewrite <- append_assoc, last_char_snoc. reflexivity.
Qed.

(** ** Registration of paths, and their dispatch *)

(** A later invocation that reads the text stored for a list of paths
    starts one child per path, in the order of the list. *)
Lemma dispatch_stored_list (name : string) (cmd paths : option string)
      (w w1 : World) (qs : list string) (stored_command : string) :
  name <> "" -> qs <> [] ->
  Forall (fun q => Py.contains "," q = false) qs ->
  load_store env w = (w1, Ok tt) ->
  ConfigParser.getitem (config w1) (Some name) "paths"
  = inr (Py.str_of_list qs) ->
  ConfigParser.getitem (config w1) (Some name) "command"
  = inr stored_command ->
  snd (main env (ahd_invoke name cmd paths) w) = Ok tt
  /\ launched (trace (fst (main env (ahd_invoke name cmd paths) w)))
     = (launched (trace w)
        ++ map (cd_and_run (platform env) stored_command) qs)%list.
Proof.
  intros Hname Hne Hq Hl Hp Hc.
  assert (T : trace w1 = trace w).
  { pose proof (load_store_keeps_trace w) as K. rewrite Hl in K. exact K. }
  rewrite (main_invoke name cmd paths w w1 _ stored_command Hl Hc
             (dispatch_list name _ stored_command w1 Hname Hp Hc eq_refl)).
  split; [reflexivity |].
  cbn [fst add_events trace]. rewrite T, !launched_app, launched_dispatch_events.
  cbn [launched flat_map]. rewrite app_nil_r. f_equal.
  rewrite <- (map_map Py.strip (fun d => instruction d stored_command)).
  rewrite (resolved_paths_stored _ _ Hne Hq), map_map.
  apply map_ext. intros q. apply instruction_parts.
Qed.

Lemma str_of_list_brackets (l : list string) :
  Py.startswith "[" (Py.str_of_list l) = true
  /\ Py.endswith "]" (Py.str_of_list l) = true.
Proof.
  unfold Py.str_of_list. split; [reflexivity |].
  change ("[" ++ Py.join ", " (map Py.repr l) ++ "]")
    with (("[" ++ Py.join ", " (map Py.repr l)) ++ "]").
  apply endswith_app.
Qed.

Lemma paths_argument_list (paths : string) :
  paths <> "" ->
  paths_argument (Some paths) = Py.str_of_list (_preprocess_paths paths).
Proof.
  intros H. unfold paths_argument.
  destruct (String.eqb_spec paths ""); [contradiction | reflexivity].
Qed.

Lemma preprocess_paths_length (paths : string) :
  List.length (_preprocess_paths paths) = List.length (Py.split "," paths).
Proof. unfold _preprocess_paths. apply length_map. Qed.

(** What a registration with a list of paths leaves behind. *)
Lemma registration_stores (name : string) (cmd : option string)
      (paths : string) (w w2 : World) :
  paths <> "" ->
  main env (ahd_register name cmd (Some paths)) w = (w2, Ok tt) ->
  let stored := Py.str_of_list (_preprocess_paths paths) in
  ConfigParser.dict_get (sectdict (config w2) name) "paths" = Some stored
  /\ files w2 (realpath env (cwd w) (CONFIG_FILE_PATH env))
     = Some (ConfigParser.write (config w2))
  /\ (Py.contains "%" paths = false ->
      name <> ConfigParser.default_section ->
      ConfigParser.getitem (config w2) (Some name) "paths" = inr stored).
Proof.
  intros Hne H stored.
  apply main_register_inv in H. destruct H as [w1 [c [_ [_ [Hs Hf]]]]].
  rewrite (paths_argument_list paths Hne) in Hs. fold stored in Hs.
  split; [apply (setitem_stores _ _ _ _ _ Hs) |].
  split; [exact Hf |].
  intros Hpc Hd. apply (setitem_getitem _ _ _ _ _ Hs Hd).
  apply str_of_list_without; try reflexivity.
  apply preprocess_paths_without; [reflexivity | right; exact Hpc].
Qed.

(** C3, as the code has it: a registration that returns, for N >= 2
    comma-separated paths with no percent sign, stores the text of the
    Python list of the preprocessed paths, which starts with [[] and ends
    with []], writes the registry to the store, and reads the stored text
    back unchanged; the list has N paths, the directory composed for each
    has no single quote and no white space at its ends, and an invocation
    that reads the stored text starts exactly one child per path, in
    order. *)
Theorem multi_path_registration
        (name : string) (cmd : option string) (paths : string)
        (w w2 : World) :
  2 <= List.length (Py.split "," paths) ->
  Py.contains "%" paths = false ->
  main env (ahd_register name cmd (Some paths)) w = (w2, Ok tt) ->
  let qs := _preprocess_paths paths in
  let stored := Py.str_of_list qs in
  (Py.startswith "[" stored = true /\ Py.endswith "]" stored = true)
  /\ ConfigParser.dict_get (sectdict (config w2) name) "paths" = Some stored
  /\ files w2 (realpath env (cwd w) (CONFIG_FILE_PATH env))
     = Some (ConfigParser.write (config w2))
  /\ (name <> ConfigParser.default_section ->
      ConfigParser.getitem (config w2) (Some name) "paths" = inr stored)
  /\ List.length qs = List.length (Py.split "," paths)
  /\ Forall (fun q => Py.contains "'" (directory_of (platform env) q) = false
                      /\ Py.strip (directory_of (platform env) q)
                         = directory_of (platform env) q) qs
  /\ forall (given_command given_paths : option string) (v v1 : World)
            (stored_command : string),
      name <> "" ->
      load_store env v = (v1, Ok tt) ->
      ConfigParser.getitem (config v1) (Some name) "paths" = inr stored ->
      ConfigParser.getitem (config v1) (Some name) "command"
      = inr stored_command ->
      snd (main env (ahd_invoke name given_command given_paths) v) = Ok tt
      /\ launched
           (trace (fst (main env (ahd_invoke name given_command given_paths) v)))
         = (launched (trace v)
            ++ map (cd_and_run (platform env) stored_command) qs)%list.
Proof.
  intros HN Hpc H qs stored.
  assert (Hne : paths <> "").
  { intros ->. simpl in HN. lia. }
  assert (Hq : qs <> []).
  { intros E. pose proof (preprocess_paths_length paths) as L.
    fold qs in L. rewrite E in L. simpl in L. lia. }
  destruct (registration_stores name cmd paths w w2 Hne H) as [S1 [S2 S3]].
  split; [apply str_of_list_brackets |].
  split; [exact S1 |]. split; [exact S2 |].
  split; [intros Hd; apply S3; assumption |].
  split; [apply preprocess_paths_length |].
  split.
  - eapply Forall_impl; [| apply preprocess_paths_trimmed].
    intros q Hq'. split; [apply directory_of_without_quote |].
    apply strip_trimmed, directory_of_trimmed, Hq'.
  - intros gc gp v v1 sc Hname Hl Hp Hc.
    apply (dispatch_stored_list name gc gp v v1 qs sc Hname Hq); try assumption.
    apply preprocess_paths_without; [reflexivity | left; reflexivity].
Qed.


(** * Further properties of the code *)

(** ** [_preprocess_paths] *)

Lemma split_not_nil (sep : ascii) (s : string) : Py.split sep s <> [].
Proof.
  intros E. pose proof (split_length sep s) as L. rewrite E in L.
  discriminate.
Qed.

Lemma join_cons (sep x : string) (l : list string) :
  l <> [] -> Py.join sep (x :: l) = x ++ sep ++ Py.join sep l.
Proof. destruct l; [intros H; contradiction H |]; reflexivity. Qed.

Lemma join_split (sep : ascii) (s : string) :
  Py.join (String sep "") (Py.split sep s) = s.
Proof.
  induction s as [| c r IH]; [reflexivity |].
  cbn [Py.split]. destruct (Ascii.eqb_spec c sep) as [-> | N].
  - rewrite join_cons by apply split_not_nil. rewrite IH. reflexivity.
  - pose proof (split_not_nil sep r) as Hn.
    destruct (Py.split sep r) as [| h t]; [contradiction Hn; reflexivity |].
    rewrite <- IH. destruct t; reflexivity.
Qed.

(** X1: [_preprocess_paths] returns one path per comma-separated piece of
    its input, one more than the input has commas; no path holds a comma
    or a backslash, and each is as [strip] leaves it. *)
Theorem preprocess_paths_shape (paths : string) :
  List.length (_preprocess_paths paths) = S (Py.count "," paths)
  /\ Forall (fun q => Py.contains "," q = false
                      /\ Py.contains "\" q = false
                      /\ Py.strip q = q)
            (_preprocess_paths paths).
Proof.
  split.
  - rewrite preprocess_paths_length. apply split_length.
  - pose proof (preprocess_paths_without "," paths eq_refl
                  (or_introl eq_refl)) as A.
    pose proof (preprocess_paths_without_backslash paths) as B.
    pose proof (preprocess_paths_trimmed paths) as C.
    rewrite Forall_forall in *. intros q Hq.
    repeat split; [apply A | apply B | apply strip_trimmed, C]; exact Hq.
Qed.

(** X2: when the input has no backslash and no piece of it has white space
    at its ends, [_preprocess_paths] changes nothing: joining its result
    with commas gives the input back. *)
Theorem preprocess_paths_join (paths : string) :
  Py.contains "\" paths = false ->
  Forall (fun piece => trimmed piece = true) (Py.split "," paths) ->
  _preprocess_paths paths = Py.split "," paths
  /\ Py.join "," (_preprocess_paths paths) = paths.
Proof.
  intros Hb Ht.
  assert (E : _preprocess_paths paths = Py.split "," paths).
  { unfold _preprocess_paths.
    pose proof (split_pieces "\" "," paths (or_intror Hb)) as P.
    rewrite <- (map_id (Py.split "," paths)) at 2.
    apply map_ext_in. intros x Hx.
    rewrite Forall_forall in P, Ht.
    rewrite (replace_absent _ _ _ (P x Hx)).
    apply strip_trimmed, Ht, Hx. }
  split; [exact E |]. rewrite E. apply join_split.
Qed.

(** ** Invocation *)


(** What [main] does after loading when a name is invoked. *)
Lemma invoke_rest_keeps_files (name cmd : option string) :
  keeps files
    (c <- (if "." =? command_argument cmd
           then config_getitem name "command"
           else ret (command_argument cmd)) ;;
     dispatch env name ;;
     ret tt ;;
     os_chdir CURRENT_PATH).
Proof. unfold dispatch, config_getitem, print, subprocess_Popen. keeps_auto. Qed.

Lemma invoke_rest_keeps_config (name cmd : option string) :
  keeps config
    (c <- (if "." =? command_argument cmd
           then config_getitem name "command"
           else ret (command_argument cmd)) ;;
     dispatch env name ;;
     ret tt ;;
     os_chdir CURRENT_PATH).
Proof. unfold dispatch, config_getitem, print, subprocess_Popen. keeps_auto. Qed.

Lemma main_invoke_rest (name : string) (cmd paths : option string) (w : World) :
  main env (ahd_invoke name cmd paths) w
  = (load_store env ;;
     c <- (if "." =? command_argument cmd
           then config_getitem (Some name) "command"
           else ret (command_argument cmd)) ;;
     dispatch env (Some name) ;;
     ret tt ;;
     os_chdir CURRENT_PATH) w.
Proof. reflexivity. Qed.

(** X4: invoking a name only reads: when the store file exists, a run of
    [ahd <name>] leaves every file as it was, whatever the run's outcome,
    and the registry in memory is the one loading made. *)
Theorem invocation_only_reads
        (name : string) (cmd paths : option string) (w : World) :
  files w (realpath env (cwd w) (CONFIG_FILE_PATH env)) <> None ->
  files (fst (main env (ahd_invoke name cmd paths) w)) = files w
  /\ config (fst (main env (ahd_invoke name cmd paths) w))
     = config (fst (load_store env w)).
Proof.
  intros H. rewrite main_invoke_rest. split.
  - rewrite (keeps_bind_tail files).
    + apply load_store_reads, H.
    + intros _. apply invoke_rest_keeps_files.
  - apply (keeps_bind_tail config). intros _. apply invoke_rest_keeps_config.
Qed.

(** ** Export and import *)

(** X5: [ahd config --export], once the store is loaded and when the export
    file can be opened for writing, prints the path of the export file,
    writes the registry into it as [ConfigParser.write] renders it, and
    leaves the registry as loaded. *)
Theorem export_writes_registry (w w1 : World) :
  load_store env w = (w1, Ok tt) ->
  open_w_error env
    (realpath env (cwd w) (os_curdir ++ os_sep (platform env) ++ ".ahdconfig"))
  = None ->
  exists w2,
    main env (ahd_config true None) w = (w2, Ok tt)
    /\ files w2 (realpath env (cwd w)
                   (os_curdir ++ os_sep (platform env) ++ ".ahdconfig"))
       = Some (ConfigParser.write (config w1))
    /\ config w2 = config w1
    /\ trace w2
       = (trace w ++ [Print (os_curdir ++ os_sep (platform env) ++ ".ahdconfig");
                      Chdir os_curdir])%list.
Proof.
  intros Hl Ho.
  assert (C : cwd w1 = cwd w).
  { pose proof (load_store_keeps_cwd w) as K. rewrite Hl in K. exact K. }
  assert (T : trace w1 = trace w).
  { pose proof (load_store_keeps_trace w) as K. rewrite Hl in K. exact K. }
  rewrite (main_config _ _ _ _ Hl). unfold config_command.
  cbn [arg_export arg_import ahd_config when]. unfold print.
  eexists. split.
  - erewrite bind_Ok; [apply os_chdir_curdir |].
    erewrite bind_Ok; [reflexivity |].
    erewrite bind_Ok by apply emit_run.
    unfold write_file. rewrite bind_get_world. cbn [add_events cwd].
    rewrite C, Ho. reflexivity.
  - cbn [add_events set_file fst files config trace cwd].
    rewrite String.eqb_refl, T. unfold config_write. cbn [config].
    rewrite <- app_assoc. repeat split; reflexivity.
Qed.

(** X6: [ahd config --import <file>] for a file that does not exist ends
    the run with [FileNotFoundError] of that name, in the world as loading
    left it. *)
Theorem import_of_missing_file (source : string) (w w1 : World) :
  source <> "" ->
  load_store env w = (w1, Ok tt) ->
  files w1 (realpath env (cwd w) source) = None ->
  main env (ahd_config false (Some source)) w
  = (w1, Raised (FileNotFoundError source)).
Proof.
  intros Hs Hl Hf.
  assert (C : cwd w1 = cwd w).
  { pose proof (load_store_keeps_cwd w) as K. rewrite Hl in K. exact K. }
  rewrite (main_config _ _ _ _ Hl). unfold config_command.
  cbn [arg_export arg_import ahd_config when].
  apply bind_Raised. rewrite bind_ret.
  destruct (String.eqb_spec source "") as [E | _]; [contradiction |].
  cbn [negb when]. apply bind_Raised.
  unfold read_file. rewrite bind_get_world, C, Hf. reflexivity.
Qed.

(** ** Registration *)

(** The other sections and the defaults, after [config[name] = {...}] for a
    name that is not reserved. *)
Lemma setitem_frame (cfg cfg' : ConfigParser.t) (name c v : string) :
  ConfigParser.setitem cfg (Some name) [("command", c); ("paths", v)]
  = (cfg', None) ->
  name <> "" -> name <> ConfigParser.default_section ->
  ConfigParser._defaults cfg' = ConfigParser._defaults cfg
  /\ forall other,
      name <> other ->
      ConfigParser.dict_get (ConfigParser._sections cfg') other
      = ConfigParser.dict_get (ConfigParser._sections cfg) other.
Proof.
  unfold ConfigParser.setitem, ConfigParser.read_dict.
  cbn [ConfigParser.str_of_key]. intros H Ne Nd.
  apply set_items_inv in H. destruct H as [cfg1 [S1 S2]].
  apply set_inv in S1. apply set_inv in S2.
  destruct (String.eqb_spec name ConfigParser.default_section) as [E | _];
    [contradiction |].
  destruct (String.eqb_spec name "") as [E | _]; [contradiction |].
  cbn [orb] in S1, S2.
  match type of S1 with
  | context [ConfigParser.add_section_quietly ?cl name] =>
      assert (F : ConfigParser._defaults
                    (ConfigParser.add_section_quietly cl name)
                  = ConfigParser._defaults cfg
                  /\ forall other,
                      name <> other ->
                      ConfigParser.dict_get
                        (ConfigParser._sections
                           (ConfigParser.add_section_quietly cl name)) other
                      = ConfigParser.dict_get (ConfigParser._sections cfg) other)
  end.
  { unfold ConfigParser.add_section_quietly.
    destruct (String.eqb_spec name ConfigParser.default_section) as [E | _];
      [contradiction |].
    cbn [orb].
    destruct (ConfigParser.has_section cfg name) eqn:Hs.
    - unfold ConfigParser.has_section, ConfigParser.dict_mem.
      cbn [ConfigParser._sections]. rewrite dict_get_set_same.
      cbn [ConfigParser._defaults ConfigParser._sections].
      split; [reflexivity |]. intros other N.
      apply dict_get_set_other, N.
    - rewrite Hs. cbn [ConfigParser._defaults ConfigParser._sections].
      split; [reflexivity |]. intros other N.
      apply dict_get_set_other, N. }
  destruct F as [Fd Fs]. subst cfg' cfg1.
  cbn [ConfigParser._defaults ConfigParser._sections]. split; [exact Fd |].
  intros other N. rewrite !dict_get_set_other by exact N. apply Fs, N.
Qed.

(** X7: a registration that returns, under a name that is neither empty
    nor [DEFAULT], leaves under that name exactly the two options [command]
    and [paths] with the values of this registration, whatever the name
    held before; every other section and the defaults are as loading
    left them. *)
Theorem registration_replaces_entry
        (name : string) (cmd paths : option string) (w w2 : World) :
  name <> "" -> name <> ConfigParser.default_section ->
  main env (ahd_register name cmd paths) w = (w2, Ok tt) ->
  exists w1 c,
    load_store env w = (w1, Ok tt)
    /\ ConfigParser.dict_get (ConfigParser._sections (config w2)) name
       = Some [("command", c); ("paths", paths_argument paths)]
    /\ (cmd <> Some "." -> c = command_argument cmd)
    /\ ConfigParser._defaults (config w2) = ConfigParser._defaults (config w1)
    /\ forall other,
        name <> other ->
        ConfigParser.dict_get (ConfigParser._sections (config w2)) other
        = ConfigParser.dict_get (ConfigParser._sections (config w1)) other.
Proof.
  intros Ne Nd H.
  apply main_register_inv in H. destruct H as [w1 [c [Hl [Hc [Hs _]]]]].
  exists w1, c. split; [exact Hl |].
  pose proof (setitem_result _ _ _ _ _ Hs) as R.
  destruct (String.eqb_spec name ConfigParser.default_section) as [E | _];
    [contradiction |].
  destruct R as [d0 [s0 [_ R]]].
  destruct (String.eqb_spec name "") as [E | _]; [contradiction |].
  split.
  { rewrite R. cbn [ConfigParser._sections]. apply dict_get_set_same. }
  split.
  { intros Hd. unfold command_argument in *.
    destruct (String.eqb_spec "." match cmd with Some c0 => c0 | None => "" end)
      as [E | _]; [| exact Hc].
    destruct cmd as [c0 |]; [| discriminate].
    contradiction Hd. rewrite E. reflexivity. }
  apply (setitem_frame _ _ _ _ _ Hs Ne Nd).
Qed.

(** X8: a registration with the [.] shorthand that returns has read
    [config[name]["command"]] in the registry as loaded and stores the
    value that read gave as the command of the entry.  The value read is
    the interpolation of the text found for the name, in its section or
    else in the defaults; it is that text itself when the text holds no
    percent sign.  The paths of the entry are the ones given with the
    shorthand, the empty text when none is given. *)
Theorem shorthand_stores_command_read
        (name : string) (paths : option string) (w w2 : World) :
  main env (ahd_register name (Some ".") paths) w = (w2, Ok tt) ->
  exists w1 c raw,
    load_store env w = (w1, Ok tt)
    /\ ConfigParser.getitem (config w1) (Some name) "command" = inr c
    /\ ConfigParser.get_raw (config w1) name "command" = Some raw
    /\ ConfigParser.before_get (config w1) name "command" raw = inr c
    /\ (Py.contains "%" raw = false -> c = raw)
    /\ ConfigParser.dict_get (sectdict (config w2) name) "command" = Some c
    /\ ConfigParser.dict_get (sectdict (config w2) name) "paths"
       = Some (paths_argument paths).
Proof.
  intros H.
  apply main_register_inv in H. destruct H as [w1 [c [Hl [Hc [Hs _]]]]].
  change (ConfigParser.getitem (config w1) (Some name) "command" = inr c)
    in Hc.
  assert (R : exists raw,
             ConfigParser.get_raw (config w1) name "command" = Some raw
             /\ ConfigParser.before_get (config w1) name "command" raw
                = inr c).
  { pose proof Hc as G. unfold ConfigParser.getitem in G.
    destruct (negb (name =? ConfigParser.default_section)
              && negb (ConfigParser.has_section (config w1) name));
      [discriminate |].
    destruct (negb (ConfigParser.has_option (config w1) name "command"));
      [discriminate |].
    destruct (ConfigParser.get_raw (config w1) name "command") as [raw |];
      [| discriminate].
    exists raw. split; [reflexivity | exact G]. }
  destruct R as [raw [Hr Hb]].
  exists w1, c, raw. split; [exact Hl |]. split; [exact Hc |].
  split; [exact Hr |]. split; [exact Hb |].
  split.
  - intros Hp. rewrite (before_get_plain _ _ _ _ Hp) in Hb.
    inversion Hb. reflexivity.
  - destruct (setitem_stores _ _ _ _ _ Hs) as [A B]. split; assumption.
Qed.

(** X9: a command that [BasicInterpolation] refuses (a percent sign that is
    neither doubled nor the start of a reference) cannot be registered: the
    run ends with the [ValueError] of the parser, and no file is written
    after loading. *)
Theorem registration_rejects_percent
        (name cmd : string) (paths : option string) (e : Exn) (w w1 : World) :
  load_store env w = (w1, Ok tt) ->
  cmd <> "." -> cmd <> "" ->
  ConfigParser.before_set cmd = inl e ->
  exists w2,
    main env (ahd_register name (Some cmd) paths) w = (w2, Raised e)
    /\ files w2 = files w1 /\ trace w2 = trace w.
Proof.
  intros Hl Hd He Hb.
  assert (T : trace w1 = trace w).
  { pose proof (load_store_keeps_trace w) as K. rewrite Hl in K. exact K. }
  unfold main.
  cbn [arg_command arg_paths arg_register arg_name arg_docs arg_config
       sys_argv_len ahd_register Nat.eqb when].
  rewrite bind_ret, (bind_Ok _ _ _ _ _ Hl), bind_ret.
  destruct (String.eqb_spec "." cmd) as [E | _];
    [contradiction Hd; rewrite E; reflexivity |].
  rewrite bind_ret. unfold register, config_setitem.
  destruct (ConfigParser.setitem (config w1) (Some name)
              [("command", cmd);
               ("paths",
                str_of_paths
                  match paths with
                  | Some given =>
                      if given =? "" then PathsStr ""
                      else PathsList (_preprocess_paths given)
                  | None => PathsStr ""
                  end)]) as [c oe] eqn:S.
  assert (Oe : oe = Some e).
  { unfold ConfigParser.setitem, ConfigParser.read_dict in S.
    cbn [ConfigParser.set_items] in S. unfold ConfigParser.set at 1 in S.
    destruct (String.eqb_spec cmd "") as [E | _]; [contradiction |].
    rewrite Hb in S. inversion S. reflexivity. }
  subst oe. exists (with_config w1 c). split.
  - apply bind_Raised. apply bind_Raised. rewrite bind_get_world, S.
    rewrite (bind_Ok _ _ _ _ _ (set_config_run _ _)). reflexivity.
  - split; [reflexivity | exact T].
Qed.

(** ** The completion script *)

Lemma completion_words_from (names : list string) :
  forall (start : nat) (w : World),
    1 <= start ->
    for_each (combine (seq start (List.length names)) names)
      (fun '(index, custom_command) =>
         when (negb (index =? 0)%nat)
           (w <- get_world ;;
            set_commands (commands w ++
                          [{| command_name := custom_command;
                              command_flags := [] |}])%list)) w
    = (with_commands w (commands w ++ map word names), Ok tt).
Proof.
  induction names as [| n names IH]; intros start w Hs.
  - cbn [List.length seq combine for_each map]. unfold ret, with_commands.
    rewrite app_nil_r. destruct w; reflexivity.
  - cbn [List.length seq combine for_each].
    destruct start as [| start]; [inversion Hs |].
    cbn [Nat.eqb negb when].
    erewrite bind_Ok by reflexivity.
    rewrite (IH (S (S start))) by lia.
    unfold with_commands. cbn [config commands files cwd trace map].
    rewrite <- app_assoc. reflexivity.
Qed.

(** The loop of lines 116-118: every section name becomes a word; the
    first key, [DEFAULT], is passed over. *)
Lemma completion_words (w : World) :
  for_each (combine (seq 0 (List.length (ConfigParser.keys (config w))))
                    (ConfigParser.keys (config w)))
    (fun '(index, custom_command) =>
       when (negb (index =? 0)%nat)
         (w <- get_world ;;
          set_commands (commands w ++
                        [{| command_name := custom_command;
                            command_flags := [] |}])%list)) w
  = (with_commands w
       (commands w
        ++ map word (ConfigParser.dict_keys (ConfigParser._sections (config w)))),
     Ok tt).
Proof.
  unfold ConfigParser.keys. cbn [List.length seq combine for_each].
  cbn [Nat.eqb negb when]. rewrite bind_ret.
  apply completion_words_from. lia.
Qed.

Lemma regenerate_completion_run (w : World) :
  let words :=
    (commands w
     ++ map word (ConfigParser.dict_keys (ConfigParser._sections (config w))))%list
  in
  regenerate_completion env w
  = match open_w_error env (realpath env (cwd w) completion_script) with
    | Some e => (with_commands w words, Raised e)
    | None =>
        ({| config := config w; commands := words;
            files := fun f =>
                       if f =? realpath env (cwd w) completion_script
                       then Some (generate_bash_autocomplete words)
                       else files w f;
            cwd := cwd w;
            trace := (trace w ++ [Print (generate_bash_autocomplete words)])%list |},
         Ok tt)
    end.
Proof.
  intros words. unfold regenerate_completion.
  rewrite bind_get_world, (bind_Ok _ _ _ _ _ (completion_words w)).
  rewrite bind_get_world. cbv zeta. fold words.
  cbn [with_commands commands].
  unfold write_file, print, completion_script.
  unfold bind at 1. rewrite bind_get_world. cbn [with_commands cwd].
  destruct (open_w_error env _); reflexivity.
Qed.

(** X10: a registration that returns on a posix host has added to the
    completable words one word without flags per section of the registry,
    in the registry's order ([DEFAULT], the first key, is passed over), and
    has printed the script generated for all the words. *)
Theorem registration_completion_words
        (name : string) (cmd paths : option string) (w w2 : World) :
  platform env = Posix ->
  main env (ahd_register name cmd paths) w = (w2, Ok tt) ->
  commands w2
  = (commands w
     ++ map word (ConfigParser.dict_keys (ConfigParser._sections (config w2))))%list
  /\ trace w2
     = (trace w ++ [Print (generate_bash_autocomplete (commands w2));
                    Chdir os_curdir])%list.
Proof.
  intros Hp. unfold main.
  cbn [arg_command arg_paths arg_register arg_name arg_docs arg_config
       sys_argv_len ahd_register Nat.eqb when].
  rewrite bind_ret. intros H.
  apply bind_Ok_inv in H. destruct H as [w1 [[] [Hl H]]].
  rewrite bind_ret in H.
  apply bind_Ok_inv in H. destruct H as [wa [c [Hc H]]].
  apply bind_Ok_inv in H. destruct H as [wb [[] [Hr H]]].
  rewrite bind_ret, os_chdir_curdir in H. inversion H. subst w2. clear H.
  assert (Ka : commands wa = commands w /\ trace wa = trace w).
  { pose proof (load_store_keeps_commands w) as K1.
    pose proof (load_store_keeps_trace w) as K2.
    rewrite Hl in K1, K2. cbn [fst] in K1, K2.
    destruct ("." =? match cmd with Some c0 => c0 | None => "" end).
    - unfold config_getitem in Hc. rewrite bind_get_world in Hc.
      destruct (ConfigParser.getitem (config w1) (Some name) "command");
        inversion Hc; subst; split; assumption.
    - inversion Hc; subst; split; assumption. }
  destruct Ka as [Kc Kt].
  unfold register in Hr.
  apply bind_Ok_inv in Hr. destruct Hr as [ws [[] [Hs Hr]]].
  apply bind_Ok_inv in Hr. destruct Hr as [wm [[] [Hm Hw]]].
  apply config_setitem_inv in Hs. destruct Hs as [_ Es].
  rewrite Hp in Hm. change (os_name Posix =? "nt") with false in Hm.
  cbn [negb when] in Hm. rewrite regenerate_completion_run in Hm.
  destruct (open_w_error env (realpath env (cwd ws) completion_script));
    [discriminate |].
  inversion Hm. subst wm. clear Hm.
  unfold write_file in Hw. rewrite bind_get_world in Hw.
  destruct (open_w_error env _); [discriminate |].
  inversion Hw. subst wb. clear Hw.
  cbn [add_events set_file fst config commands trace files cwd].
  rewrite Es. cbn [with_config config commands trace].
  rewrite Kc, Kt, <- app_assoc. split; reflexivity.
Qed.

(** X11: on [nt] a registration that returns has written no completion
    script: no word is added, nothing is printed, and the only file that
    may differ from what loading left is the store. *)
Theorem registration_on_nt_writes_no_script
        (name : string) (cmd paths : option string) (w w2 : World) :
  platform env = Nt ->
  main env (ahd_register name cmd paths) w = (w2, Ok tt) ->
  commands w2 = commands w
  /\ trace w2 = (trace w ++ [Chdir os_curdir])%list
  /\ forall f,
      f <> realpath env (cwd w) (CONFIG_FILE_PATH env) ->
      files w2 f = files (fst (load_store env w)) f.
Proof.
  intros Hp. unfold main.
  cbn [arg_command arg_paths arg_register arg_name arg_docs arg_config
       sys_argv_len ahd_register Nat.eqb when].
  rewrite bind_ret. intros H.
  apply bind_Ok_inv in H. destruct H as [w1 [[] [Hl H]]].
  rewrite bind_ret in H.
  apply bind_Ok_inv in H. destruct H as [wa [c [Hc H]]].
  apply bind_Ok_inv in H. destruct H as [wb [[] [Hr H]]].
  rewrite bind_ret, os_chdir_curdir in H. inversion H. subst w2. clear H.
  pose proof (load_store_keeps_commands w) as K1.
  pose proof (load_store_keeps_trace w) as K2.
  pose proof (load_store_keeps_cwd w) as K3.
  rewrite Hl in K1, K2, K3 |- *. cbn [fst] in K1, K2, K3 |- *.
  assert (Ea : wa = w1).
  { destruct ("." =? match cmd with Some c0 => c0 | None => "" end).
    - unfold config_getitem in Hc. rewrite bind_get_world in Hc.
      destruct (ConfigParser.getitem (config w1) (Some name) "command");
        inversion Hc; reflexivity.
    - inversion Hc; reflexivity. }
  subst wa. unfold register in Hr.
  apply bind_Ok_inv in Hr. destruct Hr as [ws [[] [Hs Hr]]].
  apply bind_Ok_inv in Hr. destruct Hr as [wm [[] [Hm Hw]]].
  apply config_setitem_inv in Hs. destruct Hs as [_ Es].
  rewrite Hp in Hm. change (os_name Nt =? "nt") with true in Hm.
  cbn [negb when] in Hm. inversion Hm. subst wm. clear Hm.
  unfold write_file in Hw. rewrite bind_get_world in Hw.
  destruct (open_w_error env _); [discriminate |].
  inversion Hw. subst wb. clear Hw.
  cbn [add_events set_file fst config commands trace files cwd].
  rewrite Es. cbn [with_config config commands trace files cwd].
  rewrite K1, K2, K3. split; [reflexivity |]. split; [reflexivity |].
  intros f Hf. destruct (String.eqb_spec f (realpath env (cwd w) (CONFIG_FILE_PATH env)));
    [contradiction | reflexivity].
Qed.

(** ** Files are never deleted *)

Lemma extends_refl (fs : string -> option string) : extends fs fs.
Proof. intros f H. exact H. Qed.

Lemma extends_trans (a b c : string -> option string) :
  extends a b -> extends b c -> extends a c.
Proof. intros H1 H2 f H. apply H2, H1, H. Qed.

Lemma grows_keeps {A : Type} (m : M A) : keeps files m -> grows m.
Proof. intros K w. rewrite K. apply extends_refl. Qed.

Lemma grows_bind {A B : Type} (m : M A) (k : A -> M B) :
  grows m -> (forall a, grows (k a)) -> grows (bind m k).
Proof.
  intros Hm Hk w. unfold bind. specialize (Hm w).
  destruct (m w) as [w1 [a | e |]]; cbn [fst] in *; try exact Hm.
  eapply extends_trans; [exact Hm | apply Hk].
Qed.

Lemma grows_when (b : bool) (m : M unit) : grows m -> grows (when b m).
Proof. intros H. destruct b; [exact H | apply grows_keeps, keeps_ret]. Qed.

Lemma grows_write_file (path : string) (text : World -> string) :
  grows (write_file env path text).
Proof.
  intros w. unfold write_file. rewrite bind_get_world.
  destruct (open_w_error env _); [apply extends_refl |].
  intros f H. cbn [set_file fst files].
  destruct (f =? realpath env (cwd w) path); [discriminate | exact H].
Qed.

Lemma load_store_grows : grows (load_store env).
Proof.
  unfold load_store. apply grows_bind.
  - apply grows_keeps. unfold os_path_exists. keeps_auto.
  - intros [|]; [apply grows_keeps, config_read_keeps_files
                | apply grows_write_file].
Qed.

Lemma register_grows (name : option string) (cmd : string) (paths : PathsValue) :
  grows (register env name cmd paths).
Proof.
  unfold register. apply grows_bind.
  - apply grows_keeps. unfold config_setitem. keeps_auto.
  - intros _. apply grows_bind; [| intros _; apply grows_write_file].
    apply grows_when. unfold regenerate_completion.
    apply grows_bind; [apply grows_keeps, keeps_get_world | intros w0].
    apply grows_bind; [apply grows_keeps; keeps_auto | intros _].
    apply grows_bind; [apply grows_keeps, keeps_get_world | intros w1].
    cbv zeta. apply grows_bind; [apply grows_write_file | intros _].
    apply grows_keeps. unfold print. keeps_auto.
Qed.

Lemma main_rest_grows (arguments : Arguments) (cmd : string) (paths : PathsValue) :
  grows
    (when (arg_docs arguments)
       (webbrowser_open_new "https://ahd.readthedocs.io" ;; exit) ;;
     c <- (if "." =? cmd
           then config_getitem (arg_name arguments) "command"
           else ret cmd) ;;
     (if arg_register arguments
      then register env (arg_name arguments) c paths
      else dispatch env (arg_name arguments)) ;;
     when (arg_config arguments) (config_command env arguments) ;;
     os_chdir CURRENT_PATH).
Proof.
  apply grows_bind;
    [apply grows_keeps; unfold webbrowser_open_new; keeps_auto | intros _].
  apply grows_bind;
    [apply grows_keeps; unfold config_getitem; keeps_auto | intros c].
  apply grows_bind.
  - destruct (arg_register arguments); [apply register_grows |].
    apply grows_keeps.
    unfold dispatch, config_getitem, print, subprocess_Popen. keeps_auto.
  - intros _. apply grows_bind; [| intros _; apply grows_keeps; keeps_auto].
    apply grows_when. unfold config_command. apply grows_bind.
    + apply grows_when. apply grows_bind;
        [apply grows_keeps; unfold print; keeps_auto
        | intros _; apply grows_write_file].
    + intros _. apply grows_keeps, import_keeps_files.
Qed.

Lemma os_path_exists_run (path : string) (w : World) :
  os_path_exists env path w
  = (w, Ok match files w (realpath env (cwd w) path) with
           | Some _ => true
           | None => false
           end).
Proof. reflexivity. Qed.

(** X12: no run of [main] deletes a file, and after any run with arguments
    the store file exists when it existed before or could be created; when
    it is created for the registry of a fresh process, it is empty. *)
Theorem store_exists_after_run (arguments : Arguments) (w : World) :
  sys_argv_len arguments <> 1 ->
  files w (realpath env (cwd w) (CONFIG_FILE_PATH env)) <> None
  \/ open_w_error env (realpath env (cwd w) (CONFIG_FILE_PATH env)) = None ->
  extends (files w) (files (fst (main env arguments w)))
  /\ files (fst (main env arguments w))
           (realpath env (cwd w) (CONFIG_FILE_PATH env)) <> None
  /\ (files w (realpath env (cwd w) (CONFIG_FILE_PATH env)) = None ->
      config w = ConfigParser.empty ->
      files (fst (load_store env w))
            (realpath env (cwd w) (CONFIG_FILE_PATH env)) = Some "").
Proof.
  intros Hargc Hs.
  assert (L : files (fst (load_store env w))
                    (realpath env (cwd w) (CONFIG_FILE_PATH env)) <> None).
  { destruct Hs as [He | Ho]; [apply load_store_grows, He |].
    unfold load_store.
    rewrite (bind_Ok _ _ _ _ _ (os_path_exists_run _ _)).
    destruct (files w (realpath env (cwd w) (CONFIG_FILE_PATH env))) eqn:E.
    - pose proof (config_read_keeps_files [CONFIG_FILE_PATH env] w) as K.
      rewrite K, E. discriminate.
    - unfold write_file. rewrite bind_get_world, Ho.
      cbn [set_file fst files]. rewrite String.eqb_refl. discriminate. }
  assert (G : extends (files (fst (load_store env w)))
                      (files (fst (main env arguments w)))).
  { unfold main.
    destruct (Nat.eqb_spec (sys_argv_len arguments) 1) as [E | _];
      [contradiction |].
    cbn [when]. rewrite bind_ret. unfold bind at 1.
    destruct (load_store env w) as [w1 [[] | e |]]; cbn [fst];
      try apply extends_refl.
    apply main_rest_grows. }
  split; [eapply extends_trans; [apply load_store_grows | exact G] |].
  split; [apply G, L |].
  intros Hn Hc. unfold load_store.
  rewrite (bind_Ok _ _ _ _ _ (os_path_exists_run _ _)), Hn.
  unfold write_file. rewrite bind_get_world.
  destruct Hs as [He | Ho]; [contradiction |]. rewrite Ho.
  cbn [set_file fst files]. rewrite String.eqb_refl.
  unfold config_write. rewrite Hc. reflexivity.
Qed.

(** ** Runs that end in [exit] *)

(** X13: [ahd docs] loads or creates the store first and only then opens
    the documentation site, once, and exits: no command, path or name is
    looked at, and when loading fails the browser is never opened. *)
Theorem docs_opens_site_after_store
  (arguments : Arguments) (w w1 : World) (r : Result unit) :
  sys_argv_len arguments <> 1 ->
  arg_docs arguments = true ->
  load_store env w = (w1, r) ->
  main env arguments w
  = match r with
    | Ok _ => (add_events w1 [OpenBrowser "https://ahd.readthedocs.io"], Exited)
    | _ => (w1, r)
    end.
Proof.
  intros Hargc Hd Hl. unfold main.
  destruct (Nat.eqb_spec (sys_argv_len arguments) 1) as [E | _];
    [contradiction |].
  cbn [when]. rewrite bind_ret, Hd. cbn [when].
  destruct r as [[] | e |].
  - rewrite (bind_Ok _ _ _ _ _ Hl). reflexivity.
  - apply bind_Raised, Hl.
  - apply bind_Exited, Hl.
Qed.

(** X14: a run without any argument prints the usage text after a line feed
    and a blank, and exits at once: the store is neither read nor created,
    and the registry, the files and the directory are untouched. *)
Theorem bare_run_prints_usage (arguments : Arguments) (w : World) :
  sys_argv_len arguments = 1 ->
  main env arguments w
  = (add_events w [Print (ConfigParser.nl ++ " " ++ usage)], Exited).
Proof.
  intros Hargc. unfold main. rewrite Hargc. reflexivity.
Qed.
End Properties.

(** * The properties on concrete runs *)

(** C1: the lookup of a name that was never registered ends the run with
    the [KeyError] of the parser, which nothing catches, and prints
    nothing; the claim has it handled. *)
Lemma unknown_name_is_not_handled :
  snd (main plain_posix (ahd_invoke "foo" None None)
            (module_init no_files home))
  = Raised (KeyError (Some "foo"))
  /\ trace (fst (main plain_posix (ahd_invoke "foo" None None)
                      (module_init no_files home))) = [].
Proof. split; vm_compute; reflexivity. Qed.

Lemma unknown_name_raises_KeyError_witness :
  main plain_posix (ahd_invoke "foo" None None) (module_init no_files home)
  = (fst (load_store plain_posix (module_init no_files home)),
     Raised (KeyError (Some "foo")))
  /\ main plain_posix (ahd_register "foo" (Some ".") None)
          (module_init no_files home)
     = (fst (load_store plain_posix (module_init no_files home)),
        Raised (KeyError (Some "foo"))).
Proof.
  destruct (unknown_name_raises_KeyError plain_posix "foo" None None
              (module_init no_files home)
              (fst (load_store plain_posix (module_init no_files home)))
              eq_refl eq_refl) as [A B].
  split; [apply A; discriminate | exact B].
Defined.



(** C3: two paths are given, the first a reference to the stored command,
    which holds a comma: the stored list is read back with the reference
    resolved, and three children are started, not two. *)
Lemma two_paths_three_children :
  List.length (Py.split "," "%(command)s,/tmp") = 2
  /\ launched
       (trace (fst (main plain_posix (ahd_invoke "x" None None)
                         (module_init
                            (files (fst (main plain_posix
                                           (ahd_register "x" (Some "echo a,b")
                                              (Some "%(command)s,/tmp"))
                                           (module_init no_files home))))
                            home))))
     = ["cd echo a && echo a,b "; "cd b && echo a,b ";
        "cd /tmp && echo a,b "].
Proof. split; vm_compute; reflexivity. Qed.

Lemma multi_path_registration_witness :
  ConfigParser.dict_get
    (sectdict
       (config (fst (main plain_posix
                       (ahd_register "build" (Some "make all") (Some "/a,/b"))
                       (module_init no_files home))))
       "build") "paths"
  = Some "['/a', '/b']"
  /\ launched
       (trace (fst (main plain_posix (ahd_invoke "build" None None)
                         (module_init (one_file store_path build_store) home))))
     = ["cd /a && make all "; "cd /b && make all "].
Proof.
  destruct (multi_path_registration plain_posix "build" (Some "make all")
              "/a,/b" (module_init no_files home)
              (fst (main plain_posix
                      (ahd_register "build" (Some "make all") (Some "/a,/b"))
                      (module_init no_files home))))
    as [_ [S [_ [_ [_ [_ D]]]]]];
    [vm_compute; repeat constructor | reflexivity | reflexivity |].
  split; [exact S |].
  destruct (D None None (module_init (one_file store_path build_store) home)
              (fst (load_store plain_posix
                      (module_init (one_file store_path build_store) home)))
              "make all") as [_ L];
    [discriminate | reflexivity | reflexivity | reflexivity |].
  rewrite L. reflexivity.
Defined.


(** C5: when the completion script cannot be written, the registration
    ends with the exception of the failed write and the store holds
    nothing of the entry: it is the empty store loading created. *)
Lemma completion_failure_loses_registration :
  snd (main locked_completion
            (ahd_register "build" (Some "make all") (Some "/a,/b"))
            (module_init no_files home))
  = Raised (PermissionError completion_script)
  /\ files (fst (main locked_completion
                      (ahd_register "build" (Some "make all") (Some "/a,/b"))
                      (module_init no_files home))) store_path
     = Some "".
Proof. split; vm_compute; reflexivity. Qed.

Lemma completion_failure_aborts_registration_witness :
  (exists w2,
     main locked_completion
          (ahd_register "build" (Some "make all") (Some "/a,/b"))
          (module_init no_files home)
     = (w2, Raised (PermissionError completion_script))
     /\ files w2 store_path = Some "")
  /\ (exists w2,
        main locked_completion (ahd_register "build" (Some ".") (Some "/c"))
             (module_init (one_file store_path build_store) home)
        = (w2, Raised (PermissionError completion_script))
        /\ files w2 store_path = Some build_store).
Proof.
  split.
  - destruct (completion_failure_aborts_registration locked_completion
                "build" (Some "make all") (Some "/a,/b")
                (PermissionError completion_script)
                (module_init no_files home)
                (fst (load_store locked_completion (module_init no_files home)))
                "make all"
                (fst (ConfigParser.setitem ConfigParser.empty (Some "build")
                        [("command", "make all"); ("paths", "['/a', '/b']")])))
      as [w2 [R [F _]]];
      [reflexivity | reflexivity | reflexivity | reflexivity | reflexivity |].
    exists w2. split; [exact R |]. rewrite F. reflexivity.
  - destruct (completion_failure_aborts_registration locked_completion
                "build" (Some ".") (Some "/c")
                (PermissionError completion_script)
                (module_init (one_file store_path build_store) home)
                (fst (load_store locked_completion
                        (module_init (one_file store_path build_store) home)))
                "make all"
                (fst (ConfigParser.setitem
                        (config (fst (load_store locked_completion
                                        (module_init
                                           (one_file store_path build_store)
                                           home))))
                        (Some "build")
                        [("command", "make all"); ("paths", "['/c']")])))
      as [w2 [R [F _]]];
      [reflexivity | reflexivity | vm_compute; reflexivity
       | vm_compute; reflexivity | vm_compute; reflexivity |].
    exists w2. split; [exact R |]. rewrite F. vm_compute. reflexivity.
Defined.

(** C6: a store with one entry is exported, and the exported file is
    imported on a host whose own store is empty: the registry stays empty.
    [config.read] is handed the open file and takes its lines for file
    names. *)
Lemma import_of_export_reads_nothing :
  files (fst (main plain_posix (ahd_config true None)
                   (module_init (one_file store_path build_store) home)))
        "./.ahdconfig"
  = Some build_store
  /\ IniReader.read "./.ahdconfig" build_store ConfigParser.empty
     = inr {| ConfigParser._defaults := [];
              ConfigParser._sections :=
                [("build", [("command", "make all");
                            ("paths", "['/a', '/b']")])] |}
  /\ main plain_posix (ahd_config false (Some "./.ahdconfig"))
          (module_init (one_file "./.ahdconfig" build_store) home)
     = ({| config := ConfigParser.empty;
           commands := commands (module_init no_files home);
           files := files (fst (load_store plain_posix
                                  (module_init
                                     (one_file "./.ahdconfig" build_store)
                                     home)));
           cwd := home; trace := [Chdir "."] |}, Ok tt).
Proof. repeat split; vm_compute; reflexivity. Qed.



Lemma invocation_ignores_arguments_witness :
  launched
    (trace (fst (main plain_posix
                   (ahd_invoke "build" (Some "rm -rf /") (Some "/tmp,/etc"))
                   (module_init (one_file store_path build_store) home))))
  = ["cd /a && make all "; "cd /b && make all "]
  /\ main plain_posix (ahd_invoke "build" (Some ".") (Some "/tmp,/etc"))
          (module_init (one_file store_path build_store) home)
     = main plain_posix (ahd_invoke "build" None None)
            (module_init (one_file store_path build_store) home).
Proof.
  split.
  - destruct (invocation_ignores_arguments plain_posix "build"
                (Some "rm -rf /") (Some "/tmp,/etc")
                (module_init (one_file store_path build_store) home)
                (fst (load_store plain_posix
                        (module_init (one_file store_path build_store) home)))
                "['/a', '/b']" "make all")
      as [R _];
      [discriminate | vm_compute; reflexivity | vm_compute; reflexivity
       | vm_compute; reflexivity |].
    rewrite R. vm_compute. reflexivity.
  - destruct (invocation_ignores_arguments plain_posix "build"
                (Some ".") (Some "/tmp,/etc")
                (module_init (one_file store_path build_store) home)
                (fst (load_store plain_posix
                        (module_init (one_file store_path build_store) home)))
                "['/a', '/b']" "make all")
      as [_ R];
      [discriminate | vm_compute; reflexivity | vm_compute; reflexivity
       | vm_compute; reflexivity |].
    exact R.
Defined.

(** C9: run inside the package directory, [ahd config --export --import
    backup.ini] registers nothing and returns, and the store at the default
    place is no longer the text it was: the export of the same run wrote
    the registry over it, without the comment line and with blanks around
    the delimiter. *)
Lemma export_beside_import_rewrites_store :
  files in_package_directory store_path = Some commented_store
  /\ snd (main rooted_posix (ahd_config true (Some "backup.ini"))
               in_package_directory)
     = Ok tt
  /\ files (fst (main rooted_posix (ahd_config true (Some "backup.ini"))
                      in_package_directory)) store_path
     = Some rendered_store
  /\ files (fst (main rooted_posix (ahd_config true (Some "backup.ini"))
                      in_package_directory)) store_path
     <> files in_package_directory store_path.
Proof.
  split; [reflexivity |].
  split; [vm_compute; reflexivity |].
  split; [vm_compute; reflexivity |].
  vm_compute. discriminate.
Qed.

Lemma import_never_writes_store_witness :
  files (fst (main plain_posix (ahd_config true (Some "backup.ini"))
                   (module_init
                      (fun f => if f =? "backup.ini" then Some lint_store
                                else one_file store_path build_store f)
                      home)))
        store_path
  = Some build_store.
Proof.
  destruct (import_never_writes_store plain_posix true "backup.ini"
              (module_init
                 (fun f => if f =? "backup.ini" then Some lint_store
                           else one_file store_path build_store f)
                 home)) as [_ B]; [discriminate |].
  apply B. discriminate.
Defined.

(** * The further properties on concrete runs *)

Lemma preprocess_paths_join_witness :
  _preprocess_paths "/a,/b c,d" = ["/a"; "/b c"; "d"]
  /\ Py.join "," (_preprocess_paths "/a,/b c,d") = "/a,/b c,d".
Proof.
  destruct (preprocess_paths_join "/a,/b c,d") as [A B];
    [reflexivity | repeat constructor |].
  split; [rewrite A; reflexivity | exact B].
Defined.


Lemma invocation_only_reads_witness :
  files (fst (main plain_posix (ahd_invoke "build" None None)
                   (module_init (one_file store_path build_store) home)))
  = one_file store_path build_store.
Proof.
  destruct (invocation_only_reads plain_posix "build" None None
              (module_init (one_file store_path build_store) home)) as [A _];
    [discriminate | exact A].
Defined.

Lemma export_writes_registry_witness :
  exists w2,
    main plain_posix (ahd_config true None)
         (module_init (one_file store_path build_store) home) = (w2, Ok tt)
    /\ files w2 "./.ahdconfig" = Some build_store.
Proof.
  destruct (export_writes_registry plain_posix
              (module_init (one_file store_path build_store) home)
              (fst (load_store plain_posix
                      (module_init (one_file store_path build_store) home))))
    as [w2 [R [F _]]]; [reflexivity | reflexivity |].
  exists w2. split; [exact R |].
  vm_compute in F. vm_compute. exact F.
Defined.

Lemma import_of_missing_file_witness :
  snd (main plain_posix (ahd_config false (Some "nowhere.ini"))
            (module_init (one_file store_path build_store) home))
  = Raised (FileNotFoundError "nowhere.ini").
Proof.
  rewrite (import_of_missing_file plain_posix "nowhere.ini"
             (module_init (one_file store_path build_store) home)
             (fst (load_store plain_posix
                     (module_init (one_file store_path build_store) home))));
    [reflexivity | discriminate | reflexivity | reflexivity].
Defined.

Lemma registration_replaces_entry_witness :
  ConfigParser.dict_get
    (ConfigParser._sections
       (config (fst (main plain_posix (ahd_register "build" (Some "ninja") None)
                          (module_init (one_file store_path build_store) home)))))
    "build"
  = Some [("command", "ninja"); ("paths", "")].
Proof.
  destruct (registration_replaces_entry plain_posix "build" (Some "ninja") None
              (module_init (one_file store_path build_store) home)
              (fst (main plain_posix (ahd_register "build" (Some "ninja") None)
                         (module_init (one_file store_path build_store) home))))
    as [w1 [c [_ [E [C _]]]]];
    [discriminate | discriminate | vm_compute; reflexivity |].
  rewrite E, C by discriminate. reflexivity.
Defined.

Lemma shorthand_stores_command_read_witness :
  exists c,
    ConfigParser.dict_get
      (sectdict
         (config (fst (main plain_posix
                         (ahd_register "build" (Some ".") (Some "/c"))
                         (module_init (one_file store_path build_store) home))))
         "build") "command" = Some c
    /\ ConfigParser.dict_get
         (sectdict
            (config (fst (main plain_posix
                            (ahd_register "build" (Some ".") (Some "/c"))
                            (module_init (one_file store_path build_store)
                                         home))))
            "build") "paths" = Some "['/c']"
    /\ c = "make all".
Proof.
  destruct (shorthand_stores_command_read plain_posix "build" (Some "/c")
              (module_init (one_file store_path build_store) home)
              (fst (main plain_posix (ahd_register "build" (Some ".") (Some "/c"))
                         (module_init (one_file store_path build_store) home))))
    as [w1 [c [raw [L [_ [Hr [_ [Hp [S P]]]]]]]]]; [vm_compute; reflexivity |].
  exists c. split; [exact S |]. split; [exact P |].
  assert (E : w1 = fst (load_store plain_posix
                          (module_init (one_file store_path build_store) home)))
    by (rewrite L; reflexivity).
  subst w1. vm_compute in Hr. inversion Hr. subst raw. apply Hp. reflexivity.
Defined.

Lemma registration_rejects_percent_witness :
  exists w2,
    main plain_posix (ahd_register "now" (Some "date +%Y") None)
         (module_init (one_file store_path build_store) home)
    = (w2, Raised (ValueError "invalid interpolation syntax"))
    /\ files w2 store_path = Some build_store.
Proof.
  destruct (registration_rejects_percent plain_posix "now" "date +%Y" None
              (ValueError "invalid interpolation syntax")
              (module_init (one_file store_path build_store) home)
              (fst (load_store plain_posix
                      (module_init (one_file store_path build_store) home))))
    as [w2 [R [F _]]];
    [reflexivity | discriminate | discriminate | reflexivity |].
  exists w2. split; [exact R | rewrite F; reflexivity].
Defined.

Lemma registration_completion_words_witness :
  map command_name
      (commands (fst (main plain_posix (ahd_register "test" (Some "pytest") None)
                           (module_init (one_file store_path build_store) home))))
  = ["docs"; "register"; "build"; "test"].
Proof.
  destruct (registration_completion_words plain_posix "test" (Some "pytest") None
              (module_init (one_file store_path build_store) home)
              (fst (main plain_posix (ahd_register "test" (Some "pytest") None)
                         (module_init (one_file store_path build_store) home))))
    as [C _]; [reflexivity | vm_compute; reflexivity |].
  rewrite C. vm_compute. reflexivity.
Defined.

Lemma registration_on_nt_writes_no_script_witness :
  trace (fst (main plain_nt (ahd_register "test" (Some "pytest") None)
                   (module_init no_files home)))
  = [Chdir "."]
  /\ files (fst (main plain_nt (ahd_register "test" (Some "pytest") None)
                      (module_init no_files home))) completion_script
     = None.
Proof.
  destruct (registration_on_nt_writes_no_script plain_nt "test" (Some "pytest")
              None (module_init no_files home)
              (fst (main plain_nt (ahd_register "test" (Some "pytest") None)
                         (module_init no_files home))))
    as [_ [T F]]; [reflexivity | reflexivity |].
  split; [rewrite T; reflexivity |].
  rewrite F by discriminate. reflexivity.
Defined.

Lemma store_exists_after_run_witness :
  files (fst (main plain_posix (ahd_invoke "anything" None None)
                   (module_init no_files home))) store_path
  <> None
  /\ files (fst (load_store plain_posix (module_init no_files home))) store_path
     = Some "".
Proof.
  destruct (store_exists_after_run plain_posix
              (ahd_invoke "anything" None None) (module_init no_files home))
    as [_ [A B]]; [discriminate | right; reflexivity |].
  split; [exact A | apply B; reflexivity].
Defined.

Lemma docs_opens_site_after_store_witness :
  trace (fst (main plain_posix ahd_docs (module_init no_files home)))
  = [OpenBrowser "https://ahd.readthedocs.io"]
  /\ files (fst (main plain_posix ahd_docs (module_init no_files home)))
           store_path
     = Some "".
Proof.
  rewrite (docs_opens_site_after_store plain_posix ahd_docs
             (module_init no_files home)
             (fst (load_store plain_posix (module_init no_files home)))
             (Ok tt));
    [| discriminate | reflexivity | reflexivity].
  split; reflexivity.
Defined.

Lemma bare_run_prints_usage_witness :
  files (fst (main plain_posix no_arguments (module_init no_files home)))
        store_path
  = None
  /\ snd (main plain_posix no_arguments (module_init no_files home)) = Exited.
Proof.
  rewrite (bare_run_prints_usage plain_posix no_arguments
             (module_init no_files home));
    [| reflexivity].
  split; reflexivity.
Defined.
